(** * Ebook-Reader: pagination, navigation, search and speech coordination

    A shallow embedding of the four variants of the reader ("variant n" is
    [ebook_reader (n).py], variant 0 is [ebook_reader.py]):
    - variants 0 and 1: a single text view with search (module [Scroll]);
    - variant 2: the page view with chunking (module [Paged]);
    - variant 3: library and page view (module [Ice]);
    - the speech coordinator of variants 0, 1 and 2 (module [Tts]; variant 3
      has its own [speak] and [stop], in [Ice]).

    Python [str] is modelled as [string]: a text is a sequence of code
    points below 256, one [ascii] per character.  On such texts
    [str.lower()] and [str.strip()] work character by character and are
    the functions [lower] and [strip] below (letters are A-Z, U+00C0-U+00D6
    and U+00D8-U+00DE; white space is U+0009-U+000D, U+001C-U+0020, U+0085
    and U+00A0).  Texts with other code points are outside the model.
    Python [int] is [Z].  The libraries the program calls (the file
    system, pypdf, ebooklib/BeautifulSoup, pyttsx3) are inputs of the model:
    each call is represented by its outcome. *)

From Stdlib Require Import ZArith List String Ascii Bool Lia DecimalString.
Import ListNotations.

Open Scope string_scope.
Open Scope Z_scope.

(** ** Python built-ins used by the program *)

Module Py.

(** Outcome of a call that may raise an [Exception]; [Raise msg] carries
    [str(e)]. *)
Inductive result (A : Type) : Type :=
| Ok (a : A)
| Raise (msg : string).
Arguments Ok {A} a.
Arguments Raise {A} msg.

Definition bind {A B : Type} (m : result A) (k : A -> result B) : result B :=
  match m with
  | Ok a => k a
  | Raise msg => Raise msg
  end.

(** [try: body  except Exception as e: handler(e)] for a body returning a
    value. *)
Definition try_except {A : Type} (body : result A) (handler : string -> A) : A :=
  match body with
  | Ok a => a
  | Raise msg => handler msg
  end.

(** [len(s)] *)
Definition len (s : string) : Z := Z.of_nat (String.length s).

(** Normalisation of one slice bound against a sequence of length [n]. *)
Definition adjust (n k : Z) : Z :=
  if k <? 0 then Z.max 0 (k + n) else Z.min k n.

(** [s[i:j]] *)
Definition slice (s : string) (i j : Z) : string :=
  let lo := adjust (len s) i in
  let hi := adjust (len s) j in
  substring (Z.to_nat lo) (Z.to_nat (hi - lo)) s.

(** [len(range(start, stop, step))] for [step <> 0]. *)
Definition range_len (start stop step : Z) : Z :=
  if 0 <? step then
    if start <? stop then 1 + (stop - 1 - start) / step else 0
  else if step <? 0 then
    if stop <? start then 1 + (start - 1 - stop) / (- step) else 0
  else 0.

(** [range(start, stop, step)]; a zero step is a [ValueError]. *)
Definition range (start stop step : Z) : result (list Z) :=
  if step =? 0 then Raise "range() arg 3 must not be zero"
  else Ok (map (fun k => start + Z.of_nat k * step)
               (seq 0 (Z.to_nat (range_len start stop step)))).

(** [c.isupper()] for a character with code below 256. *)
Definition isupper (c : ascii) : bool :=
  let n := N_of_ascii c in
  ((65 <=? n)%N && (n <=? 90)%N) || ((192 <=? n)%N && (n <=? 214)%N)
  || ((216 <=? n)%N && (n <=? 222)%N).

(** [c.lower()] on one character with code below 256. *)
Definition lower_char (c : ascii) : ascii :=
  if isupper c then ascii_of_N (N_of_ascii c + 32) else c.

(** [s.lower()] *)
Fixpoint lower (s : string) : string :=
  match s with
  | EmptyString => EmptyString
  | String c s' => String (lower_char c) (lower s')
  end.

(** [c.isspace()] for a character with code below 256. *)
Definition isspace (c : ascii) : bool :=
  let n := N_of_ascii c in
  ((9 <=? n)%N && (n <=? 13)%N) || ((28 <=? n)%N && (n <=? 32)%N)
  || (n =? 133)%N || (n =? 160)%N.

Fixpoint lstrip (s : string) : string :=
  match s with
  | EmptyString => EmptyString
  | String c s' => if isspace c then lstrip s' else s
  end.

Fixpoint rstrip (s : string) : string :=
  match s with
  | EmptyString => EmptyString
  | String c s' =>
      match rstrip s' with
      | EmptyString => if isspace c then EmptyString else String c EmptyString
      | r => String c r
      end
  end.

(** [s.strip()] *)
Definition strip (s : string) : string := rstrip (lstrip s).

(** Truth value of a string: [bool(s)]. *)
Definition truthy (s : string) : bool :=
  match s with
  | EmptyString => false
  | String _ _ => true
  end.

(** [s.find(sub, start)] *)
Definition find (s sub : string) (start : Z) : Z :=
  let start := if start <? 0 then Z.max 0 (start + len s) else start in
  if len s - start <? len sub then -1
  else match index (Z.to_nat start) sub s with
       | Some i => Z.of_nat i
       | None => -1
       end.

(** ["".join(parts)] *)
Definition join (parts : list string) : string :=
  fold_right append EmptyString parts.

(** [str(n)], also the rendering of an [int] inside an f-string. *)
Definition str (n : Z) : string := NilZero.string_of_int (Z.to_int n).

(** [not xs] for a list. *)
Definition is_empty {A : Type} (xs : list A) : bool :=
  match xs with
  | [] => true
  | _ :: _ => false
  end.

End Py.

Import Py.

Notation "x <- m ;; k" := (bind m (fun x => k))
  (at level 61, m at next level, right associativity).

(** ** The world outside the program *)

(** One manifest item of an EPUB book: [item.get_type()] and the outcome of
    [BeautifulSoup(item.get_body_content(), 'html.parser').get_text()]. *)
Record EpubItem : Type := {
  get_type : Z;
  get_text : result string
}.

(** [ebooklib.ITEM_DOCUMENT] *)
Definition ITEM_DOCUMENT : Z := 9.

(** What [epub.read_epub(path)] returns: [title_meta] lists the first
    components of [book.get_metadata('DC', 'title')]. *)
Record EpubBook : Type := {
  title_meta : list string;
  get_items : list EpubItem
}.

(** The platform a load runs on.  [PdfReader] and [epub] are [None] when the
    optional import failed.  A PDF is the list of its physical pages, each
    with the outcome of [page.extract_text()]. *)
Record Platform : Type := {
  splitext_ext : string -> string;              (* os.path.splitext(p)[1] *)
  basename : string -> string;                  (* os.path.basename(p) *)
  open_read : string -> result string;          (* open(p, 'r', ...).read() *)
  PdfReader : option (string -> result (list (result string)));
  epub : option (string -> result EpubBook)
}.

(** ** The speech coordinator ([TTSService]) *)

(** The coordinator's own engine ([self.engine]); the model records how many
    times [engine.stop()] was called on it. *)
Record Engine : Type := {
  stop_calls : nat
}.

Record TTSService : Type := {
  engine : option Engine;
  is_speaking : bool
}.

Definition engine_stop (e : Engine) : Engine :=
  {| stop_calls := S (stop_calls e) |}.

Definition set_is_speaking (b : bool) (self : TTSService) : TTSService :=
  {| engine := engine self; is_speaking := b |}.

(** [TTSService.__init__]: [r] is the outcome of [pyttsx3.init()]. *)
Definition TTSService_init (r : result Engine) : TTSService :=
  {| engine := match r with Ok e => Some e | Raise _ => None end;
     is_speaking := false |}.

(** [TTSService] of [ebook_reader.py], [ebook_reader (1).py] and
    [ebook_reader (2).py] (the three copies are identical). *)
Module Tts.

(** [stop]: [if self.engine and self.is_speaking: ...] *)
Definition stop (self : TTSService) : TTSService :=
  match engine self with
  | Some e =>
      if is_speaking self
      then {| engine := Some (engine_stop e); is_speaking := false |}
      else self
  | None => self
  end.

(** [speak]: returns the new coordinator state and the argument of the
    worker thread it starts, if any. *)
Definition speak (text : string) (self : TTSService)
  : TTSService * option string :=
  match engine self with
  | None => (self, None)
  | Some _ =>
      let self := if is_speaking self then stop self else self in
      let self := set_is_speaking true self in
      (self, Some text)
  end.

(** *** Worker threads

    What a worker can see and change: the coordinator object, the audio
    device and the console. *)
Record World : Type := {
  self_ : TTSService;
  audio : list string;       (* utterances played, oldest first *)
  stdout : list string;      (* lines printed *)
  started : list (string * bool)
                             (* workers in start order: argument, finished? *)
}.

(** Class of an object raised inside a worker: an [Exception] is caught by
    [except Exception], any other [BaseException] is not. *)
Inductive raised : Type :=
| Exception (msg : string)
| BaseException (msg : string).

(** How the worker's engine behaves: each of its three calls either
    returns or raises. *)
Inductive Fault : Type :=
| NoFault
| InitRaises (e : raised)
| SayRaises (e : raised)
| RunRaises (e : raised).

(** State-and-exception monad of a worker. *)
Definition M (A : Type) : Type := World -> (A + raised) * World.

Definition mbind {A B : Type} (m : M A) (k : A -> M B) : M B :=
  fun w => match m w with
           | (inl a, w') => k a w'
           | (inr e, w') => (inr e, w')
           end.

(** [try: body  except Exception as e: handler(e)] *)
Definition try_except_Exception {A : Type} (body : M A) (handler : string -> M A) : M A :=
  fun w => match body w with
           | (inr (Exception msg), w') => handler msg w'
           | r => r
           end.

(** [try: body  finally: final] *)
Definition try_finally {A : Type} (body : M A) (final : M unit) : M A :=
  fun w => match body w with
           | (r, w') =>
               match final w' with
               | (inl _, w'') => (r, w'')
               | (inr e, w'') => (inr e, w'')
               end
           end.

Definition print (line : string) : M unit :=
  fun w => (inl tt, {| self_ := self_ w; audio := audio w;
                       stdout := (stdout w ++ [line])%list; started := started w |}).

Definition assign_is_speaking (b : bool) : M unit :=
  fun w => (inl tt, {| self_ := set_is_speaking b (self_ w); audio := audio w;
                       stdout := stdout w; started := started w |}).

(** The worker's own engine, obtained from [pyttsx3.init()] inside the
    thread (a new instance, as the source comments say): its utterance
    queue. *)
Definition pyttsx3_init (f : Fault) : M (list string) :=
  fun w => match f with
           | InitRaises e => (inr e, w)
           | _ => (inl [], w)
           end.

Definition say (f : Fault) (queue : list string) (text : string) : M (list string) :=
  fun w => match f with
           | SayRaises e => (inr e, w)
           | _ => (inl (queue ++ [text])%list, w)
           end.

Definition runAndWait (f : Fault) (queue : list string) : M unit :=
  fun w => match f with
           | RunRaises e => (inr e, w)
           | _ => (inl tt, {| self_ := self_ w; audio := (audio w ++ queue)%list;
                              stdout := stdout w; started := started w |})
           end.

(** [TTSService._speak_thread] *)
Definition _speak_thread (f : Fault) (text : string) : M unit :=
  try_finally
    (try_except_Exception
       (mbind (pyttsx3_init f) (fun engine =>
        mbind (say f engine text) (fun engine =>
        runAndWait f engine)))
       (fun e => print ("TTS Error: " ++ e)))
    (assign_is_speaking false).

(** What can happen next: the caller thread calls [speak] or [stop], or the
    scheduler lets the [i]-th started worker run its body. *)
Inductive Event : Type :=
| CallSpeak (text : string)
| CallStop
| WorkerRuns (i : nat) (f : Fault).

Fixpoint mark_finished (i : nat) (ws : list (string * bool)) : list (string * bool) :=
  match ws, i with
  | [], _ => []
  | (t, _) :: rest, O => (t, true) :: rest
  | w :: rest, S i' => w :: mark_finished i' rest
  end.

Definition step (ev : Event) (w : World) : World :=
  match ev with
  | CallSpeak text =>
      let (s, th) := speak text (self_ w) in
      {| self_ := s; audio := audio w; stdout := stdout w;
         started := (started w ++ match th with
                                  | Some arg => [(arg, false)]
                                  | None => []
                                  end)%list |}
  | CallStop =>
      {| self_ := stop (self_ w); audio := audio w; stdout := stdout w;
         started := started w |}
  | WorkerRuns i f =>
      match nth_error (started w) i with
      | Some (text, false) =>
          let w' := snd (_speak_thread f text w) in
          {| self_ := self_ w'; audio := audio w'; stdout := stdout w';
             started := mark_finished i (started w') |}
      | _ => w
      end
  end.

Definition run (evs : list Event) (w : World) : World :=
  fold_left (fun w ev => step ev w) evs w.

(** The process right after [TTSService()] was constructed. *)
Definition boot (r : result Engine) : World :=
  {| self_ := TTSService_init r; audio := []; stdout := []; started := [] |}.

End Tts.

(** ** [ebook_reader (2).py]: the page view *)

Module Paged.

(** The fields of [ReaderPanel] the handlers read or write; widgets are
    represented by the one property the code sets on them. *)
Record ReaderPanel : Type := {
  tts_service : TTSService;
  pages : list string;
  current_page_idx : Z;
  text_ctrl : string;        (* text_ctrl.GetValue() *)
  page_lbl : string;
  title_lbl : string;
  prev_btn : bool;           (* prev_btn.IsEnabled() *)
  next_btn : bool            (* next_btn.IsEnabled() *)
}.

(** [ReaderPanel.__init__] *)
Definition ReaderPanel_init (tts : TTSService) : ReaderPanel :=
  {| tts_service := tts; pages := []; current_page_idx := 0;
     text_ctrl := ""; page_lbl := "0/0"; title_lbl := "No Book Loaded";
     prev_btn := false; next_btn := false |}.

Definition set_tts_service (t : TTSService) (self : ReaderPanel) : ReaderPanel :=
  {| tts_service := t; pages := pages self;
     current_page_idx := current_page_idx self; text_ctrl := text_ctrl self;
     page_lbl := page_lbl self; title_lbl := title_lbl self;
     prev_btn := prev_btn self; next_btn := next_btn self |}.

Definition set_pages (ps : list string) (self : ReaderPanel) : ReaderPanel :=
  {| tts_service := tts_service self; pages := ps;
     current_page_idx := current_page_idx self; text_ctrl := text_ctrl self;
     page_lbl := page_lbl self; title_lbl := title_lbl self;
     prev_btn := prev_btn self; next_btn := next_btn self |}.

Definition set_current_page_idx (i : Z) (self : ReaderPanel) : ReaderPanel :=
  {| tts_service := tts_service self; pages := pages self;
     current_page_idx := i; text_ctrl := text_ctrl self;
     page_lbl := page_lbl self; title_lbl := title_lbl self;
     prev_btn := prev_btn self; next_btn := next_btn self |}.

Definition set_title_lbl (t : string) (self : ReaderPanel) : ReaderPanel :=
  {| tts_service := tts_service self; pages := pages self;
     current_page_idx := current_page_idx self; text_ctrl := text_ctrl self;
     page_lbl := page_lbl self; title_lbl := t;
     prev_btn := prev_btn self; next_btn := next_btn self |}.

(** The four widget writes of [_update_display] at once. *)
Definition show (idx : Z) (content label : string) (prev next : bool)
    (self : ReaderPanel) : ReaderPanel :=
  {| tts_service := tts_service self; pages := pages self;
     current_page_idx := idx; text_ctrl := content;
     page_lbl := label; title_lbl := title_lbl self;
     prev_btn := prev; next_btn := next |}.

(** [_read_txt_pages] *)
Definition _read_txt_pages (os : Platform) (path : string) : result (list string) :=
  content <- open_read os path ;;
  let chunk_size := 3000 in
  r <- range 0 (len content) chunk_size ;;
  Ok (map (fun i => slice content i (i + chunk_size)) r).

(** The [for page in reader.pages] loop of [_read_pdf_pages]. *)
Fixpoint pdf_loop (reader_pages : list (result string)) (pages_text : list string)
  : result (list string) :=
  match reader_pages with
  | [] => Ok pages_text
  | page :: rest =>
      txt <- page ;;
      pdf_loop rest (if truthy (strip txt)
                     then (pages_text ++ [txt])%list
                     else pages_text)
  end.

(** [_read_pdf_pages] *)
Definition _read_pdf_pages (os : Platform) (path : string) : list string :=
  match PdfReader os with
  | None => ["Library missing: pypdf"]
  | Some PdfReader =>
      try_except
        (reader_pages <- PdfReader path ;;
         pages_text <- pdf_loop reader_pages [] ;;
         Ok (if is_empty pages_text then ["No text found in PDF."] else pages_text))
        (fun e => ["Error reading PDF: " ++ e])
  end.

(** The [for item in book.get_items()] loop of [_read_epub_pages]. *)
Fixpoint epub_loop (items : list EpubItem) (pages_text : list string)
  : result (list string) :=
  match items with
  | [] => Ok pages_text
  | item :: rest =>
      if get_type item =? ITEM_DOCUMENT then
        text <- get_text item ;;
        if 100 <? len (strip text) then
          let chunk_size := 3000 in
          if chunk_size <? len text then
            r <- range 0 (len text) chunk_size ;;
            let chunks := map (fun i => slice text i (i + chunk_size)) r in
            epub_loop rest (pages_text ++ chunks)%list
          else
            epub_loop rest (pages_text ++ [text])%list
        else epub_loop rest pages_text
      else epub_loop rest pages_text
  end.

(** [_read_epub_pages] *)
Definition _read_epub_pages (os : Platform) (path : string) : list string :=
  match epub os with
  | None => ["Libraries missing: ebooklib, beautifulsoup4"]
  | Some read_epub =>
      try_except
        (book <- read_epub path ;;
         let pages_text :=
           match title_meta book with
           | [] => []
           | t :: _ => ["Title: " ++ t]
           end in
         epub_loop (get_items book) pages_text)
        (fun e => ["Error reading EPUB: " ++ e])
  end.

(** [_update_display] *)
Definition _update_display (self : ReaderPanel) : ReaderPanel :=
  let total := Z.of_nat (List.length (pages self)) in
  if total =? 0 then
    show (current_page_idx self) "" "0/0" false false self
  else
    let idx := Z.max 0 (Z.min (current_page_idx self) (total - 1)) in
    let content := nth (Z.to_nat idx) (pages self) "" in
    show idx content (str (idx + 1) ++ " / " ++ str total)
         (0 <? idx) (idx <? total - 1) self.

(** The [if ext == ...] chain of [_load_file], up to the value of
    [new_pages] before the emptiness test. *)
Definition new_pages_of (os : Platform) (pathname : string) : result (list string) :=
  let ext := lower (splitext_ext os pathname) in
  if (ext =? ".txt")%string then _read_txt_pages os pathname
  else if (ext =? ".pdf")%string then Ok (_read_pdf_pages os pathname)
  else if (ext =? ".epub")%string then Ok (_read_epub_pages os pathname)
  else Ok ["Unsupported file format."].

Definition placeholder : string := "(Empty Book or Extraction Failed)".

(** [_load_file] (the busy cursor and [wx.LogError] are not tracked). *)
Definition _load_file (os : Platform) (pathname : string) (self : ReaderPanel)
  : ReaderPanel :=
  try_except
    (new_pages <- new_pages_of os pathname ;;
     let new_pages := if is_empty new_pages then [placeholder] else new_pages in
     let self := set_pages new_pages self in
     let self := set_current_page_idx 0 self in
     let self := set_title_lbl (basename os pathname) self in
     Ok (_update_display self))
    (fun e =>
       let self := set_pages ["Error loading file: " ++ e] self in
       let self := set_current_page_idx 0 self in
       _update_display self).

(** [on_prev_page] *)
Definition on_prev_page (self : ReaderPanel) : ReaderPanel :=
  if 0 <? current_page_idx self then
    let self := set_current_page_idx (current_page_idx self - 1) self in
    let self := set_tts_service (Tts.stop (tts_service self)) self in
    _update_display self
  else self.

(** [on_next_page] *)
Definition on_next_page (self : ReaderPanel) : ReaderPanel :=
  if current_page_idx self <? Z.of_nat (List.length (pages self)) - 1 then
    let self := set_current_page_idx (current_page_idx self + 1) self in
    let self := set_tts_service (Tts.stop (tts_service self)) self in
    _update_display self
  else self.

(** [while has_next: next()], recording the index shown before each step
    and at the end. *)
Fixpoint next_until_end (fuel : nat) (self : ReaderPanel) : list Z * ReaderPanel :=
  match fuel with
  | O => ([current_page_idx self], self)
  | S fuel' =>
      if next_btn self then
        let (visited, final) := next_until_end fuel' (on_next_page self) in
        (current_page_idx self :: visited, final)
      else ([current_page_idx self], self)
  end.

(** [while has_previous: previous()], recorded the same way. *)
Fixpoint prev_until_start (fuel : nat) (self : ReaderPanel) : list Z * ReaderPanel :=
  match fuel with
  | O => ([current_page_idx self], self)
  | S fuel' =>
      if prev_btn self then
        let (visited, final) := prev_until_start fuel' (on_prev_page self) in
        (current_page_idx self :: visited, final)
      else ([current_page_idx self], self)
  end.

End Paged.

(** ** [ebook_reader (3).py]: library and page view *)

Module Ice.

(** [TTSService.stop]: only the flag is reset. *)
Definition stop (self : TTSService) : TTSService :=
  if is_speaking self then set_is_speaking false self else self.

(** [TTSService.speak]: the new coordinator state and the argument of the
    worker thread it starts. *)
Definition speak (text : string) (self : TTSService)
  : TTSService * option string :=
  let self := if is_speaking self then stop self else self in
  let self := set_is_speaking true self in
  (self, Some text).

Record ReaderPanel : Type := {
  tts_service : TTSService;
  pages : list string;
  current_page_idx : Z;
  text_ctrl : string;
  page_lbl : string;
  title_lbl : string;
  slider_max : Z;
  slider_value : Z;
  prev_btn : bool;
  next_btn : bool
}.

(** [ReaderPanel.__init__] *)
Definition ReaderPanel_init (tts : TTSService) : ReaderPanel :=
  {| tts_service := tts; pages := []; current_page_idx := 0;
     text_ctrl := ""; page_lbl := " 0 / 0 "; title_lbl := "No Book";
     slider_max := 100; slider_value := 0;
     prev_btn := true; next_btn := true |}.

Definition set_current_page_idx (i : Z) (self : ReaderPanel) : ReaderPanel :=
  {| tts_service := tts_service self; pages := pages self;
     current_page_idx := i; text_ctrl := text_ctrl self;
     page_lbl := page_lbl self; title_lbl := title_lbl self;
     slider_max := slider_max self; slider_value := slider_value self;
     prev_btn := prev_btn self; next_btn := next_btn self |}.

(** [update_display]; the index is in range wherever the program calls it. *)
Definition update_display (self : ReaderPanel) : ReaderPanel :=
  if is_empty (pages self) then self
  else
    let idx := current_page_idx self in
    let total := Z.of_nat (List.length (pages self)) in
    {| tts_service := tts_service self; pages := pages self;
       current_page_idx := idx;
       text_ctrl := nth (Z.to_nat idx) (pages self) "";
       page_lbl := str (idx + 1) ++ " / " ++ str total;
       title_lbl := title_lbl self;
       slider_max := slider_max self; slider_value := idx;
       prev_btn := 0 <? idx; next_btn := idx <? total - 1 |}.

(** [load_book] *)
Definition load_book (os : Platform) (path : string) (new_pages : list string)
    (self : ReaderPanel) : ReaderPanel :=
  update_display
    {| tts_service := tts_service self; pages := new_pages;
       current_page_idx := 0; text_ctrl := text_ctrl self;
       page_lbl := page_lbl self; title_lbl := basename os path;
       slider_max := if is_empty new_pages then 0
                     else Z.of_nat (List.length new_pages) - 1;
       slider_value := slider_value self;
       prev_btn := prev_btn self; next_btn := next_btn self |}.

(** [on_prev] *)
Definition on_prev (self : ReaderPanel) : ReaderPanel :=
  if 0 <? current_page_idx self then
    update_display (set_current_page_idx (current_page_idx self - 1) self)
  else self.

(** [on_next] *)
Definition on_next (self : ReaderPanel) : ReaderPanel :=
  if current_page_idx self <? Z.of_nat (List.length (pages self)) - 1 then
    update_display (set_current_page_idx (current_page_idx self + 1) self)
  else self.

(** [on_read_click]: the panel and the worker argument, if one starts. *)
Definition on_read_click (self : ReaderPanel) : ReaderPanel * option string :=
  if is_empty (pages self) then (self, None)
  else
    let (tts, th) :=
      speak (nth (Z.to_nat (current_page_idx self)) (pages self) "")
            (tts_service self) in
    ({| tts_service := tts; pages := pages self;
        current_page_idx := current_page_idx self; text_ctrl := text_ctrl self;
        page_lbl := page_lbl self; title_lbl := title_lbl self;
        slider_max := slider_max self; slider_value := slider_value self;
        prev_btn := prev_btn self; next_btn := next_btn self |}, th).

(** [MainFrame._chunk_text(text, size)]:
    [[text[i:i+size] for i in range(0, len(text), size)]] *)
Definition _chunk_text (text : string) (size : Z) : result (list string) :=
  r <- range 0 (len text) size ;;
  Ok (map (fun i => slice text i (i + size)) r).

(** The comprehension of [_read_pdf]:
    [[p.extract_text() for p in reader.pages if p.extract_text().strip()]] *)
Fixpoint pdf_comprehension (reader_pages : list (result string))
  : result (list string) :=
  match reader_pages with
  | [] => Ok []
  | p :: rest =>
      cond <- p ;;
      if truthy (strip cond) then
        txt <- p ;;
        tl <- pdf_comprehension rest ;;
        Ok (txt :: tl)
      else pdf_comprehension rest
  end.

(** [MainFrame._read_pdf] *)
Definition _read_pdf (os : Platform) (path : string) : list string :=
  match PdfReader os with
  | None => ["Please install pypdf"]
  | Some PdfReader =>
      try_except
        (reader_pages <- PdfReader path ;;
         pdf_comprehension reader_pages)
        (fun e => [e])
  end.

(** The [for item in book.get_items()] loop of [_read_epub]. *)
Fixpoint epub_loop (items : list EpubItem) (pages : list string)
  : result (list string) :=
  match items with
  | [] => Ok pages
  | item :: rest =>
      if get_type item =? ITEM_DOCUMENT then
        text <- get_text item ;;
        if 200 <? len text
        then epub_loop rest (pages ++ [text])%list
        else epub_loop rest pages
      else epub_loop rest pages
  end.

(** [MainFrame._read_epub] *)
Definition _read_epub (os : Platform) (path : string) : list string :=
  match epub os with
  | None => ["Please install ebooklib beautifulsoup4"]
  | Some read_epub =>
      try_except
        (book <- read_epub path ;;
         epub_loop (get_items book) [])
        (fun e => [e])
  end.

(** [MainFrame.extract_text] *)
Definition extract_text (os : Platform) (path : string) : list string :=
  try_except
    (let ext := lower (splitext_ext os path) in
     if (ext =? ".txt")%string then
       content <- open_read os path ;;
       _chunk_text content 3000
     else if (ext =? ".pdf")%string then Ok (_read_pdf os path)
     else if (ext =? ".epub")%string then Ok (_read_epub os path)
     else Ok ["Could not read file."])
    (fun e => ["Error: " ++ e]).

(** [MainFrame.open_book] (showing and hiding panels is not tracked). *)
Definition open_book (os : Platform) (path : string) (self : ReaderPanel)
  : ReaderPanel :=
  let pages := extract_text os path in
  load_book os path pages self.

End Ice.

(** ** [ebook_reader.py] and [ebook_reader (1).py]: search in the text view *)

Module Scroll.

Record TextCtrl : Type := {
  value : string;
  insertion_point : Z;
  selection : Z * Z;
  focused : bool
}.

Record ReaderPanel : Type := {
  text_ctrl : TextCtrl;
  search_box : string            (* search_box.GetValue() *)
}.

(** The calls a handler makes on the toolkit. *)
Inductive WxCall : Type :=
| SetInsertionPoint (pos : Z)
| SetSelection (from to : Z)
| SetFocus
| MessageBox (message caption : string).

(** [on_search]: the toolkit calls it makes, in order. *)
Definition on_search (self : ReaderPanel) : list WxCall :=
  let query := search_box self in
  if negb (truthy query) then []
  else
    let full_text := lower (value (text_ctrl self)) in
    let query := lower query in
    let start_pos := insertion_point (text_ctrl self) in
    let found_pos := find full_text query (start_pos + 1) in
    let found_pos :=
      if found_pos =? -1 then find full_text query 0 else found_pos in
    if negb (found_pos =? -1) then
      [SetInsertionPoint found_pos;
       SetSelection found_pos (found_pos + len query);
       SetFocus]
    else
      [MessageBox "Text not found." "Search"].

(** Effect of one toolkit call on the text control. *)
Definition perform (t : TextCtrl) (c : WxCall) : TextCtrl :=
  match c with
  | SetInsertionPoint pos =>
      {| value := value t; insertion_point := pos;
         selection := selection t; focused := focused t |}
  | SetSelection from to =>
      {| value := value t; insertion_point := insertion_point t;
         selection := (from, to); focused := focused t |}
  | SetFocus =>
      {| value := value t; insertion_point := insertion_point t;
         selection := selection t; focused := true |}
  | MessageBox _ _ => t
  end.

(** The panel after the handler returned. *)
Definition after_search (self : ReaderPanel) : ReaderPanel :=
  {| text_ctrl := fold_left perform (on_search self) (text_ctrl self);
     search_box := search_box self |}.

(** What a search reports to the user. *)
Inductive SearchOutcome : Type :=
| NoSearch                     (* nothing happened *)
| FoundAt (offset : Z)         (* the match was selected *)
| NotFound.                    (* the "Text not found." box *)

Definition outcome (calls : list WxCall) : SearchOutcome :=
  match calls with
  | [] => NoSearch
  | SetInsertionPoint pos :: _ => FoundAt pos
  | _ => NotFound
  end.

(** Searching [term] in a view showing [h] with the caret at [k]. *)
Definition search (h term : string) (k : Z) : SearchOutcome :=
  outcome (on_search
             {| text_ctrl := {| value := h; insertion_point := k;
                                selection := (k, k); focused := false |};
                search_box := term |}).

(** [term] (up to case) occurs in [h] at offset [i]: the lower-cased term
    is found at [i] in the lower-cased text. *)
Definition occurs_at (h term : string) (i : Z) : Prop :=
  0 <= i /\
  substring (Z.to_nat i) (String.length (lower term)) (lower h) = lower term.

End Scroll.

(** ** Auxiliary notions used in the statements *)

(** The first [m] windows of width [c] of a text: the slices at offsets
    [0, c, 2c, ...]. *)
Definition windows (t : string) (c : Z) (m : nat) : list string :=
  map (fun i => slice t i (i + c))
      (map (fun k => 0 + Z.of_nat k * c) (seq 0 m)).

(** The texts of the document items of a book, in manifest order (the first
    failing [get_text] aborts the traversal). *)
Fixpoint document_texts (items : list EpubItem) : result (list string) :=
  match items with
  | [] => Ok []
  | item :: rest =>
      if get_type item =? ITEM_DOCUMENT then
        text <- get_text item ;;
        tl <- document_texts rest ;;
        Ok (text :: tl)
      else document_texts rest
  end.

(** The pages variant 2 makes of one EPUB section: none below the
    threshold, windows of 3000 characters for a long section, the section
    itself otherwise. *)
Definition section_pages (text : string) : list string :=
  if 100 <? len (strip text) then
    if 3000 <? len text
    then windows text 3000 (Z.to_nat (range_len 0 (len text) 3000))
    else [text]
  else [].

(** The synthetic title page of [_read_epub_pages]. *)
Definition title_pages (book : EpubBook) : list string :=
  match title_meta book with
  | [] => []
  | t :: _ => ["Title: " ++ t]
  end.

(** The page view shows one of its pages and its widgets agree with the
    index: the state every load of variant 2 ends in. *)
Definition loaded (s : Paged.ReaderPanel) : Prop :=
  let total := Z.of_nat (List.length (Paged.pages s)) in
  0 <= Paged.current_page_idx s < total /\
  Paged.prev_btn s = (0 <? Paged.current_page_idx s) /\
  Paged.next_btn s = (Paged.current_page_idx s <? total - 1).

(** The pages a load of variant 2 installs, by the outcome of the
    extraction. *)
Definition installed_pages (r : result (list string)) : list string :=
  match r with
  | Ok [] => [Paged.placeholder]
  | Ok (p :: ps) => p :: ps
  | Raise e => ["Error loading file: " ++ e]
  end.

(** The test both page views apply to the text of a PDF page:
    [txt.strip()] is not empty. *)
Definition has_text (txt : string) : bool := truthy (strip txt).

(** A coordinator never claims to speak without an engine. *)
Definition tts_wf (t : TTSService) : Prop :=
  engine t = None -> is_speaking t = false.

(** ** Test platforms *)

(** Extension of a path without directories: the suffix from the last dot. *)
Fixpoint stub_ext (p : string) : string :=
  match p with
  | EmptyString => EmptyString
  | String c p' =>
      match stub_ext p' with
      | EmptyString => if (c =? ".")%char then p else EmptyString
      | e => e
      end
  end.

(** A platform holding one file, one PDF and one EPUB book. *)
Definition stub_platform (file : result string)
    (pdf : option (result (list (result string))))
    (book : option (result EpubBook)) : Platform :=
  {| splitext_ext := stub_ext;
     basename := fun p => p;
     open_read := fun _ => file;
     PdfReader := option_map (fun r (_ : string) => r) pdf;
     epub := option_map (fun r (_ : string) => r) book |}.

Fixpoint repeat_char (c : ascii) (n : nat) : string :=
  match n with
  | O => EmptyString
  | S n' => String c (repeat_char c n')
  end.

Definition tts0 : TTSService := TTSService_init (Ok {| stop_calls := 0 |}).

(** A PDF with a single physical page of 3001 characters. *)
Definition pdf_one_long_page : Platform :=
  stub_platform (Raise "not a text file")
                (Some (Ok [Ok (repeat_char "a" 3001)])) None.

(** A platform holding the text file "hello". *)
Definition hello_txt : Platform := stub_platform (Ok "hello") None None.

(** The page view after loading a PDF with three pages of text. *)
Definition three_pages : Paged.ReaderPanel :=
  Paged._load_file
    (stub_platform (Raise "not a text file")
                   (Some (Ok [Ok "one"; Ok "two"; Ok "three"])) None)
    "book.pdf" (Paged.ReaderPanel_init tts0).

(** A PDF whose only physical page has no extractable text. *)
Definition pdf_blank_page : Platform :=
  stub_platform (Raise "not a text file") (Some (Ok [Ok ""])) None.

(** A PDF with one blank page and one page of text. *)
Definition pdf_blank_then_text : Platform :=
  stub_platform (Raise "not a text file")
                (Some (Ok [Ok ""; Ok "Chapter 1"])) None.

(** An EPUB book without title whose only section has 3001 characters. *)
Definition epub_long_section : Platform :=
  stub_platform (Raise "not a text file") None
    (Some (Ok {| title_meta := [];
                 get_items := [{| get_type := ITEM_DOCUMENT;
                                  get_text := Ok (repeat_char "a" 3001) |}] |})).

(** The page view of variant 3 on a two-page book, after "Listen" was
    pressed on the first page. *)
Definition ice_listening : Ice.ReaderPanel :=
  fst (Ice.on_read_click
         (Ice.load_book pdf_blank_page "book.pdf" ["one"; "two"]
            (Ice.ReaderPanel_init tts0))).

(** ** Handlers and loaders outside the page and search cores *)

(** [xs[i]] on a list of strings: a negative index counts from the end, an
    index out of range is an [IndexError]. *)
Definition getitem (xs : list string) (i : Z) : result string :=
  let n := Z.of_nat (List.length xs) in
  let j := if i <? 0 then i + n else i in
  if (0 <=? j) && (j <? n)
  then Ok (nth (Z.to_nat j) xs "")
  else Raise "list index out of range".

(** The remaining handlers of the page view of variant 2. *)
Module PagedUi.

(** [on_read_aloud]; [selection] is the outcome of
    [text_ctrl.GetStringSelection()].  The result is the panel and the
    argument of the worker thread [speak] starts, if any. *)
Definition on_read_aloud (selection : string) (self : Paged.ReaderPanel)
  : result (Paged.ReaderPanel * option string) :=
  if is_empty (Paged.pages self) then Ok (self, None)
  else if truthy selection then
    let (tts, th) := Tts.speak selection (Paged.tts_service self) in
    Ok (Paged.set_tts_service tts self, th)
  else
    content <- getitem (Paged.pages self) (Paged.current_page_idx self) ;;
    let (tts, th) := Tts.speak content (Paged.tts_service self) in
    Ok (Paged.set_tts_service tts self, th).

(** [on_stop_read] *)
Definition on_stop_read (self : Paged.ReaderPanel) : Paged.ReaderPanel :=
  Paged.set_tts_service (Tts.stop (Paged.tts_service self)) self.

(** What can happen to the panel: a file is opened, a button is pressed, or
    a worker thread reaches its [finally] clause. *)
Inductive Event : Type :=
| Open (os : Platform) (pathname : string)
| Next
| Prev
| ReadAloud (selection : string)
| StopRead
| WorkerFinishes.

(** A handler that raises leaves the panel as it was before the first
    assignment; [on_read_aloud] assigns nothing before it can raise. *)
Definition step (self : Paged.ReaderPanel) (ev : Event) : Paged.ReaderPanel :=
  match ev with
  | Open os pathname => Paged._load_file os pathname self
  | Next => Paged.on_next_page self
  | Prev => Paged.on_prev_page self
  | ReadAloud selection =>
      match on_read_aloud selection self with
      | Ok (self', _) => self'
      | Raise _ => self
      end
  | StopRead => on_stop_read self
  | WorkerFinishes =>
      Paged.set_tts_service (set_is_speaking false (Paged.tts_service self)) self
  end.

Definition run (evs : list Event) (self : Paged.ReaderPanel) : Paged.ReaderPanel :=
  fold_left step evs self.

End PagedUi.

(** The remaining handlers and the worker of variant 3. *)
Module IceUi.

(** [on_slider_change]; [val] is the outcome of [slider.GetValue()]. *)
Definition on_slider_change (val : Z) (self : Ice.ReaderPanel) : Ice.ReaderPanel :=
  if (0 <=? val) && (val <? Z.of_nat (List.length (Ice.pages self))) then
    Ice.update_display (Ice.set_current_page_idx val self)
  else self.

(** [on_back_click] (the switch back to the library view is not tracked). *)
Definition on_back_click (self : Ice.ReaderPanel) : Ice.ReaderPanel :=
  {| Ice.tts_service := Ice.stop (Ice.tts_service self);
     Ice.pages := Ice.pages self;
     Ice.current_page_idx := Ice.current_page_idx self;
     Ice.text_ctrl := Ice.text_ctrl self;
     Ice.page_lbl := Ice.page_lbl self; Ice.title_lbl := Ice.title_lbl self;
     Ice.slider_max := Ice.slider_max self;
     Ice.slider_value := Ice.slider_value self;
     Ice.prev_btn := Ice.prev_btn self; Ice.next_btn := Ice.next_btn self |}.

(** [try: body  except: pass] *)
Definition try_except_pass (body : Tts.M unit) : Tts.M unit :=
  fun w => match body w with
           | (inr _, w') => (inl tt, w')
           | r => r
           end.

(** [TTSService._speak_thread] of variant 3. *)
Definition _speak_thread (f : Tts.Fault) (text : string) : Tts.M unit :=
  Tts.try_finally
    (try_except_pass
       (Tts.mbind (Tts.pyttsx3_init f) (fun engine =>
        Tts.mbind (Tts.say f engine text) (fun engine =>
        Tts.runAndWait f engine))))
    (Tts.assign_is_speaking false).

Inductive Event : Type :=
| Open (os : Platform) (path : string)
| Next
| Prev
| Slider (val : Z)
| ReadClick
| BackClick
| WorkerFinishes.

Definition set_tts_service (t : TTSService) (self : Ice.ReaderPanel) : Ice.ReaderPanel :=
  {| Ice.tts_service := t;
     Ice.pages := Ice.pages self;
     Ice.current_page_idx := Ice.current_page_idx self;
     Ice.text_ctrl := Ice.text_ctrl self;
     Ice.page_lbl := Ice.page_lbl self; Ice.title_lbl := Ice.title_lbl self;
     Ice.slider_max := Ice.slider_max self;
     Ice.slider_value := Ice.slider_value self;
     Ice.prev_btn := Ice.prev_btn self; Ice.next_btn := Ice.next_btn self |}.

Definition step (self : Ice.ReaderPanel) (ev : Event) : Ice.ReaderPanel :=
  match ev with
  | Open os path => Ice.open_book os path self
  | Next => Ice.on_next self
  | Prev => Ice.on_prev self
  | Slider val => on_slider_change val self
  | ReadClick => fst (Ice.on_read_click self)
  | BackClick => on_back_click self
  | WorkerFinishes =>
      set_tts_service (set_is_speaking false (Ice.tts_service self)) self
  end.

Definition run (evs : list Event) (self : Ice.ReaderPanel) : Ice.ReaderPanel :=
  fold_left step evs self.

End IceUi.

(** The loader and the read-aloud handlers of the text view (variants 0
    and 1). *)
Module ScrollUi.

(** [on_read_aloud] of variant 0: the argument passed to [speak]. *)
Definition on_read_aloud_0 (selection : string) (self : Scroll.ReaderPanel) : string :=
  if truthy selection then selection
  else
    let full_text := Scroll.value (Scroll.text_ctrl self) in
    let pos := Scroll.insertion_point (Scroll.text_ctrl self) in
    slice full_text pos (len full_text).

(** [on_read_aloud] of variant 1: the argument passed to [speak]. *)
Definition on_read_aloud (selection : string) (self : Scroll.ReaderPanel) : string :=
  if truthy selection then selection
  else
    let full_text := Scroll.value (Scroll.text_ctrl self) in
    let pos := Scroll.insertion_point (Scroll.text_ctrl self) in
    slice full_text pos (pos + 5000).

(** The [for page in reader.pages] loop of [_read_pdf] (variant 1). *)
Fixpoint pdf_loop (reader_pages : list (result string)) (text : list string)
  : result (list string) :=
  match reader_pages with
  | [] => Ok text
  | page :: rest =>
      extracted <- page ;;
      pdf_loop rest (if truthy extracted then (text ++ [extracted])%list else text)
  end.

(** [_read_pdf] of variant 1 (the message box is not tracked). *)
Definition _read_pdf (os : Platform) (path : string) : string :=
  match PdfReader os with
  | None => "Library missing: pypdf"
  | Some PdfReader =>
      try_except
        (reader_pages <- PdfReader path ;;
         text <- pdf_loop reader_pages [] ;;
         Ok (String.concat (String "010" "") text))
        (fun e => "Error reading PDF: " ++ e)
  end.

(** The [for item in book.get_items()] loop of [_read_epub] (variant 1). *)
Fixpoint epub_loop (items : list EpubItem) (text : list string)
  : result (list string) :=
  match items with
  | [] => Ok text
  | item :: rest =>
      if get_type item =? ITEM_DOCUMENT then
        t <- get_text item ;;
        epub_loop rest (text ++ [t])%list
      else epub_loop rest text
  end.

(** [_read_epub] of variant 1 (the message box is not tracked). *)
Definition _read_epub (os : Platform) (path : string) : string :=
  match epub os with
  | None => "Library missing: ebooklib or beautifulsoup4"
  | Some read_epub =>
      try_except
        (book <- read_epub path ;;
         let text :=
           match title_meta book with
           | [] => []
           | t :: _ => ["Title: " ++ t ++ String "010" ""]
           end in
         text <- epub_loop (get_items book) text ;;
         Ok (String.concat (String "010" (String "010" "")) text))
        (fun e => "Error reading EPUB: " ++ e)
  end.

(** The text view: what [_load_file] writes. *)
Record View : Type := {
  view_text : string;            (* text_ctrl.GetValue() *)
  view_title : string            (* title_lbl.GetLabel() *)
}.

(** [_load_file] of variant 1 (the busy cursor and [wx.LogError] are not
    tracked). *)
Definition _load_file (os : Platform) (pathname : string) (self : View) : View :=
  try_except
    (let ext := lower (splitext_ext os pathname) in
     content <-
       (if (ext =? ".txt")%string then open_read os pathname
        else if (ext =? ".pdf")%string then Ok (_read_pdf os pathname)
        else if (ext =? ".epub")%string then Ok (_read_epub os pathname)
        else Ok "Unsupported file format.") ;;
     Ok {| view_text := content; view_title := basename os pathname |})
    (fun _ => self).

End ScrollUi.

(** ** Auxiliary notions for the further properties *)

(** The message of the first call that raises, if any. *)
Fixpoint first_error (rs : list (result string)) : option string :=
  match rs with
  | [] => None
  | Raise e :: _ => Some e
  | Ok _ :: rest => first_error rest
  end.

(** The values of the calls that returned. *)
Fixpoint returned (rs : list (result string)) : list string :=
  match rs with
  | [] => []
  | Ok v :: rest => v :: returned rest
  | Raise _ :: rest => returned rest
  end.

Definition is_document (item : EpubItem) : bool := get_type item =? ITEM_DOCUMENT.

(** The page view of variant 2 shows the page at its index. *)
Definition shown (s : Paged.ReaderPanel) : Prop :=
  loaded s /\
  Paged.text_ctrl s
  = nth (Z.to_nat (Paged.current_page_idx s)) (Paged.pages s) "".

(** The page view of variant 2 before any book was opened. *)
Definition blank (s : Paged.ReaderPanel) : Prop :=
  Paged.pages s = [] /\ Paged.current_page_idx s = 0 /\
  Paged.text_ctrl s = "" /\
  Paged.prev_btn s = false /\ Paged.next_btn s = false.

(** The index of the page view of variant 3 designates a page whenever
    there is one, and then the widgets agree with it. *)
Definition ice_valid (s : Ice.ReaderPanel) : Prop :=
  let total := Z.of_nat (List.length (Ice.pages s)) in
  (Ice.pages s = [] -> Ice.current_page_idx s = 0) /\
  (Ice.pages s <> [] ->
     0 <= Ice.current_page_idx s < total /\
     Ice.text_ctrl s
     = nth (Z.to_nat (Ice.current_page_idx s)) (Ice.pages s) "" /\
     Ice.slider_value s = Ice.current_page_idx s /\
     Ice.slider_max s = total - 1 /\
     Ice.prev_btn s = (0 <? Ice.current_page_idx s) /\
     Ice.next_btn s = (Ice.current_page_idx s <? total - 1)).

(** Number of [speak] calls in a schedule. *)
Definition speak_calls (evs : list Tts.Event) : nat :=
  List.length (filter (fun ev => match ev with Tts.CallSpeak _ => true | _ => false end) evs).

(** The arguments of the workers that have run. *)
Definition finished_texts (w : Tts.World) : list string :=
  map fst (filter snd (Tts.started w)).

(** What the page view of variant 2 looks like when it shows page [i] of
    [ps]. *)
Definition page_display (t : TTSService) (ps : list string) (i : Z)
    (title : string) : Paged.ReaderPanel :=
  {| Paged.tts_service := t; Paged.pages := ps; Paged.current_page_idx := i;
     Paged.text_ctrl := nth (Z.to_nat i) ps "";
     Paged.page_lbl := str (i + 1) ++ " / " ++ str (Z.of_nat (List.length ps));
     Paged.title_lbl := title;
     Paged.prev_btn := 0 <? i;
     Paged.next_btn := i <? Z.of_nat (List.length ps) - 1 |}.

(** What holds of the coordinator of variants 0 to 2 and its workers at any
    time: a set flag means a worker is still to finish, and what was played
    are texts of finished workers, at most one utterance each. *)
Definition world_inv (w : Tts.World) : Prop :=
  (is_speaking (Tts.self_ w) = false \/
   exists text, In (text, false) (Tts.started w)) /\
  incl (Tts.audio w) (finished_texts w) /\
  (List.length (Tts.audio w) <= List.length (finished_texts w))%nat.

(** The extension is none of the three the loaders know. *)
Definition unrecognized (os : Platform) (pathname : string) : Prop :=
  let ext := lower (splitext_ext os pathname) in
  ext <> ".txt" /\ ext <> ".pdf" /\ ext <> ".epub".



(** A PDF whose only physical page holds a no-break space (U+00A0), a next
    line character (U+0085) and a space. *)
Definition pdf_nbsp_page : Platform :=
  stub_platform (Raise "not a text file")
                (Some (Ok [Ok (String "160" (String "133" " "))])) None.

(** An EPUB book without title whose only section is 50 letters followed by
    60 no-break spaces. *)
Definition epub_padded_section : Platform :=
  stub_platform (Raise "not a text file") None
    (Some (Ok {| title_meta := [];
                 get_items :=
                   [{| get_type := ITEM_DOCUMENT;
                       get_text := Ok (repeat_char "a" 50 ++ repeat_char "160" 60) |}] |})).

(** * Properties *)

(** ** Strings: [substring], [append] and [length] *)

Lemma substring_nil (a b : nat) : substring a b "" = "".
Proof. destruct a, b; reflexivity. Qed.

Lemma substring_adjacent (s : string) (a b : nat) :
  substring 0 a s ++ substring a b s = substring 0 (a + b) s.
Proof.
  revert s; induction a as [|a IH]; intros s.
  - destruct s; destruct b; reflexivity.
  - destruct s as [|ch s]; [now rewrite !substring_nil|].
    cbn [Nat.add substring append]. now rewrite IH.
Qed.

Lemma substring_whole (s : string) (n : nat) :
  (String.length s <= n)%nat -> substring 0 n s = s.
Proof.
  revert n; induction s as [|ch s IH]; intros n Hn.
  - apply substring_nil.
  - destruct n as [|n]; cbn in Hn; [lia|].
    cbn. f_equal. apply IH. lia.
Qed.

Lemma substring_length (s : string) (a b : nat) :
  String.length (substring a b s) = Nat.min b (String.length s - a).
Proof.
  revert a b; induction s as [|ch s IH]; intros a b.
  - rewrite substring_nil. cbn. lia.
  - destruct a as [|a].
    + destruct b as [|b]; cbn; [reflexivity|].
      rewrite IH. rewrite Nat.sub_0_r. reflexivity.
    + cbn. apply IH.
Qed.

Lemma substring_clip (s : string) (a b : nat) :
  substring a (Nat.min b (String.length s - a)) s = substring a b s.
Proof.
  revert a b; induction s as [|ch s IH]; intros a b.
  - now rewrite !substring_nil.
  - destruct a as [|a].
    + destruct b as [|b]; [reflexivity|].
      cbn [String.length Nat.sub Nat.min substring].
      f_equal. specialize (IH 0%nat b). rewrite Nat.sub_0_r in IH. exact IH.
    + cbn [String.length Nat.sub substring]. apply IH.
Qed.

Lemma len_nonneg (s : string) : 0 <= len s.
Proof. unfold len. lia. Qed.

Lemma len_empty (s : string) : len s = 0 -> s = "".
Proof. unfold len. destruct s; cbn; [reflexivity|lia]. Qed.

(** A slice with bounds inside the text is a [substring]. *)
Lemma slice_window (s : string) (i c : Z) :
  0 <= i <= len s -> 0 <= c ->
  slice s i (i + c) = substring (Z.to_nat i) (Z.to_nat c) s.
Proof.
  intros Hi Hc. unfold slice, adjust.
  destruct (Z.ltb_spec i 0); [lia|].
  destruct (Z.ltb_spec (i + c) 0); [lia|].
  rewrite <- (substring_clip s (Z.to_nat i) (Z.to_nat c)).
  f_equal; unfold len in *; lia.
Qed.

Lemma join_app (xs ys : list string) :
  join (xs ++ ys) = join xs ++ join ys.
Proof.
  unfold join. induction xs as [|x xs IH]; [reflexivity|].
  cbn. rewrite IH. clear. induction x; cbn; congruence.
Qed.

Lemma append_empty_r (s : string) : s ++ "" = s.
Proof. induction s; cbn; congruence. Qed.

(** ** Fixed-length windows *)

Lemma windows_S (t : string) (c : Z) (m : nat) :
  windows t c (S m) =
  (windows t c m ++ [slice t (Z.of_nat m * c) (Z.of_nat m * c + c)])%list.
Proof.
  unfold windows. rewrite seq_S, !map_app. reflexivity.
Qed.

Lemma windows_length (t : string) (c : Z) (m : nat) :
  List.length (windows t c m) = m.
Proof. unfold windows. now rewrite !length_map, length_seq. Qed.

Lemma windows_nth (t : string) (c : Z) (m k : nat) :
  (k < m)%nat ->
  nth k (windows t c m) "" = slice t (Z.of_nat k * c) (Z.of_nat k * c + c).
Proof.
  induction m as [|m IH]; intros Hk; [lia|].
  rewrite windows_S.
  destruct (Nat.eq_dec k m) as [->|Hne].
  - rewrite app_nth2; rewrite windows_length; [|lia].
    now rewrite Nat.sub_diag.
  - rewrite app_nth1 by (rewrite windows_length; lia).
    apply IH. lia.
Qed.

Lemma windows_join (t : string) (c : Z) (m : nat) :
  0 < c -> Z.of_nat m * c < len t + c ->
  join (windows t c m) = substring 0 (Z.to_nat (Z.of_nat m * c)) t.
Proof.
  intros Hc. induction m as [|m IH]; intros Hm.
  - cbn. destruct t; reflexivity.
  - rewrite windows_S, join_app, IH by lia.
    cbn [join fold_right]. rewrite append_empty_r.
    rewrite slice_window by lia.
    rewrite substring_adjacent. f_equal. lia.
Qed.

Lemma range_len_chunks (n c : Z) :
  0 <= n -> 0 < c ->
  let m := range_len 0 n c in
  0 <= m /\ n <= m * c /\ m * c < n + c /\ (n = 0 -> m = 0).
Proof.
  intros Hn Hc. unfold range_len.
  destruct (Z.ltb_spec 0 c); [|lia].
  destruct (Z.ltb_spec 0 n).
  - rewrite Z.sub_0_r.
    pose proof (Z.div_pos (n - 1) c ltac:(lia) Hc).
    pose proof (Z.mul_div_le (n - 1) c Hc).
    pose proof (Z.mul_succ_div_gt (n - 1) c Hc).
    cbn zeta. nia.
  - cbn zeta. lia.
Qed.

Lemma chunk_text_windows (t : string) (c : Z) :
  c <> 0 ->
  Ice._chunk_text t c = Ok (windows t c (Z.to_nat (range_len 0 (len t) c))).
Proof.
  intros Hc. unfold Ice._chunk_text, range, windows.
  destruct (Z.eqb_spec c 0); [contradiction|].
  cbn [bind]. reflexivity.
Qed.

Lemma window_len (t : string) (c : Z) (k : nat) :
  0 < c -> Z.of_nat k * c <= len t ->
  len (slice t (Z.of_nat k * c) (Z.of_nat k * c + c))
  = Z.min c (len t - Z.of_nat k * c).
Proof.
  intros Hc Hk. rewrite slice_window by lia.
  unfold len in *. rewrite substring_length. lia.
Qed.

Lemma read_txt_pages_chunk_text (os : Platform) (path t : string) :
  open_read os path = Ok t ->
  Paged._read_txt_pages os path = Ice._chunk_text t 3000.
Proof.
  intros Hread. unfold Paged._read_txt_pages. rewrite Hread. reflexivity.
Qed.

(** The windows of a text at a positive width. *)
Lemma windows_chunking (t : string) (c : Z) :
  0 < c ->
  let pages := windows t c (Z.to_nat (range_len 0 (len t) c)) in
  join pages = t /\
  (forall k, (k < List.length pages)%nat ->
     nth k pages "" = slice t (Z.of_nat k * c) (Z.of_nat k * c + c)) /\
  (forall k, (S k < List.length pages)%nat -> len (nth k pages "") = c) /\
  (forall p, In p pages -> 0 < len p <= c) /\
  (t = "" -> pages = []).
Proof.
  intros Hc.
  pose proof (range_len_chunks (len t) c (len_nonneg t) Hc) as Hm.
  cbn zeta in *. destruct Hm as (Hm0 & Hlo & Hhi & Hzero).
  set (m := Z.to_nat (range_len 0 (len t) c)).
  assert (Hmz : Z.of_nat m = range_len 0 (len t) c) by (unfold m; lia).
  rewrite windows_length.
  assert (Hlen : forall k, (k < m)%nat ->
            len (nth k (windows t c m) "") = Z.min c (len t - Z.of_nat k * c)).
  { intros k Hk. rewrite windows_nth by assumption.
    apply window_len; [assumption|]. nia. }
  split; [|split; [|split; [|split]]].
  - rewrite windows_join by lia.
    apply substring_whole. unfold len in *. lia.
  - intros k Hk. now apply windows_nth.
  - intros k Hk. rewrite Hlen by lia. nia.
  - intros p Hp. destruct (In_nth _ _ "" Hp) as (k & Hk & <-).
    rewrite windows_length in Hk. rewrite Hlen by assumption. nia.
  - intros ->. replace m with 0%nat; [reflexivity|].
    unfold m. rewrite Hzero; reflexivity.
Qed.

(** C1.  For every text [t] and chunk size [c > 0] the plain-text paginator
    ([_chunk_text] of variant 3, and [_read_txt_pages] of variant 2 with
    [c = 3000]) returns the consecutive windows [t[k*c : k*c+c]]: joining the
    pages in order gives back [t], every page but the last has length
    exactly [c] (and no page is empty or longer than [c]), and the empty
    text gives no page at all. *)
Theorem C1_chunking_lossless (t : string) (c : Z) (Hc : 0 < c) :
  exists pages : list string,
    Ice._chunk_text t c = Ok pages /\
    join pages = t /\
    (forall k, (k < List.length pages)%nat ->
       nth k pages "" = slice t (Z.of_nat k * c) (Z.of_nat k * c + c)) /\
    (forall k, (S k < List.length pages)%nat -> len (nth k pages "") = c) /\
    (forall p, In p pages -> 0 < len p <= c) /\
    (t = "" -> pages = []) /\
    (forall os path, open_read os path = Ok t ->
       Paged._read_txt_pages os path = Ice._chunk_text t 3000).
Proof.
  destruct (windows_chunking t c Hc) as (Hjoin & Hnth & Hfull & Hbound & Hnil).
  exists (windows t c (Z.to_nat (range_len 0 (len t) c))).
  repeat apply conj; try assumption.
  - apply chunk_text_windows. lia.
  - intros os path. apply read_txt_pages_chunk_text.
Qed.

Lemma C1_chunking_lossless_witness :
  0 < 3 /\
  exists pages : list string,
    Ice._chunk_text "abcdefg" 3 = Ok pages /\
    join pages = "abcdefg" /\
    (forall k, (k < List.length pages)%nat ->
       nth k pages "" = slice "abcdefg" (Z.of_nat k * 3) (Z.of_nat k * 3 + 3)) /\
    (forall k, (S k < List.length pages)%nat -> len (nth k pages "") = 3) /\
    (forall p, In p pages -> 0 < len p <= 3) /\
    ("abcdefg" = "" -> pages = []) /\
    (forall os path, open_read os path = Ok "abcdefg" ->
       Paged._read_txt_pages os path = Ice._chunk_text "abcdefg" 3000).
Proof.
  split; [lia | apply (C1_chunking_lossless "abcdefg" 3); lia].
Defined.

(** ** Loading in the page view (variant 2) *)

Lemma update_display_pages (s : Paged.ReaderPanel) :
  Paged.pages (Paged._update_display s) = Paged.pages s.
Proof.
  unfold Paged._update_display.
  destruct (Z.of_nat (List.length (Paged.pages s)) =? 0); reflexivity.
Qed.

Lemma update_display_tts (s : Paged.ReaderPanel) :
  Paged.tts_service (Paged._update_display s) = Paged.tts_service s.
Proof.
  unfold Paged._update_display.
  destruct (Z.of_nat (List.length (Paged.pages s)) =? 0); reflexivity.
Qed.

(** On a panel whose index is in range, [_update_display] keeps the index
    and shows that page. *)
Lemma update_display_in_range (s : Paged.ReaderPanel) :
  let total := Z.of_nat (List.length (Paged.pages s)) in
  0 <= Paged.current_page_idx s < total ->
  Paged._update_display s =
  Paged.show (Paged.current_page_idx s)
    (nth (Z.to_nat (Paged.current_page_idx s)) (Paged.pages s) "")
    (str (Paged.current_page_idx s + 1) ++ " / " ++ str total)
    (0 <? Paged.current_page_idx s)
    (Paged.current_page_idx s <? total - 1) s.
Proof.
  cbn zeta. intros Hi. unfold Paged._update_display.
  destruct (Z.eqb_spec (Z.of_nat (List.length (Paged.pages s))) 0); [lia|].
  replace (Z.max 0 (Z.min (Paged.current_page_idx s)
                      (Z.of_nat (List.length (Paged.pages s)) - 1)))
    with (Paged.current_page_idx s) by lia.
  reflexivity.
Qed.

Lemma update_display_loaded (s : Paged.ReaderPanel) :
  let total := Z.of_nat (List.length (Paged.pages s)) in
  0 <= Paged.current_page_idx s < total ->
  loaded (Paged._update_display s).
Proof.
  cbn zeta. intros Hi. rewrite update_display_in_range by assumption.
  unfold loaded; cbn. auto.
Qed.

Lemma load_file_unfold (os : Platform) (pathname : string) (self : Paged.ReaderPanel) :
  exists s0,
    Paged._load_file os pathname self = Paged._update_display s0 /\
    Paged.pages s0 = installed_pages (Paged.new_pages_of os pathname) /\
    Paged.current_page_idx s0 = 0 /\
    Paged.tts_service s0 = Paged.tts_service self.
Proof.
  unfold Paged._load_file.
  destruct (Paged.new_pages_of os pathname) as [[|p ps]|e];
    cbn [bind try_except is_empty installed_pages];
    eexists; (split; [reflexivity|]); cbn; auto.
Qed.

Lemma installed_pages_nonempty (r : result (list string)) :
  installed_pages r <> [].
Proof. destruct r as [[|p ps]|e]; discriminate. Qed.

Lemma load_file_pages (os : Platform) (pathname : string) (self : Paged.ReaderPanel) :
  Paged.pages (Paged._load_file os pathname self)
  = installed_pages (Paged.new_pages_of os pathname).
Proof.
  destruct (load_file_unfold os pathname self) as (s0 & -> & Hp & _).
  now rewrite update_display_pages.
Qed.

Lemma load_file_loaded (os : Platform) (pathname : string) (self : Paged.ReaderPanel) :
  loaded (Paged._load_file os pathname self) /\
  Paged.current_page_idx (Paged._load_file os pathname self) = 0 /\
  Paged.text_ctrl (Paged._load_file os pathname self)
  = nth 0 (Paged.pages (Paged._load_file os pathname self)) "".
Proof.
  destruct (load_file_unfold os pathname self) as (s0 & -> & Hp & Hi & _).
  pose proof (installed_pages_nonempty (Paged.new_pages_of os pathname)) as Hne.
  rewrite <- Hp in Hne.
  assert (Hr : 0 <= Paged.current_page_idx s0
               < Z.of_nat (List.length (Paged.pages s0))).
  { rewrite Hi. destruct (Paged.pages s0); [contradiction|cbn; lia]. }
  split; [now apply update_display_loaded|].
  rewrite update_display_in_range by assumption. cbn.
  rewrite Hi. auto.
Qed.

(** C3.  Whatever the extraction did (no pages, an exception, an
    unrecognized extension, or pages), [_load_file] of variant 2 ends with a
    non-empty page list, index 0 in range, the first page on display and
    the buttons agreeing with the index.  When the extraction yields no
    pages the single placeholder page (whose text in the source is
    "(Empty Book or Extraction Failed)") is installed, it is the current
    page, and both navigation buttons are disabled. *)
Theorem C3_load_ends_valid (os : Platform) (pathname : string)
    (self : Paged.ReaderPanel) :
  let s := Paged._load_file os pathname self in
  Paged.pages s <> [] /\
  Paged.current_page_idx s = 0 /\
  loaded s /\
  Paged.text_ctrl s = nth (Z.to_nat (Paged.current_page_idx s)) (Paged.pages s) "" /\
  Paged.prev_btn s = false /\
  match Paged.new_pages_of os pathname with
  | Ok [] =>
      Paged.pages s = [Paged.placeholder] /\
      Paged.text_ctrl s = Paged.placeholder /\
      Paged.prev_btn s = false /\ Paged.next_btn s = false
  | Ok (p :: ps) => Paged.pages s = p :: ps
  | Raise e => Paged.pages s = ["Error loading file: " ++ e]
  end /\
  (let ext := lower (splitext_ext os pathname) in
   if ((ext =? ".txt") || (ext =? ".pdf") || (ext =? ".epub"))%string
   then True
   else Paged.pages s = ["Unsupported file format."]) /\
  Paged.placeholder = "(Empty Book or Extraction Failed)".
Proof.
  cbn zeta.
  destruct (load_file_loaded os pathname self) as (Hl & Hi & Ht).
  pose proof (load_file_pages os pathname self) as Hp.
  pose proof (installed_pages_nonempty (Paged.new_pages_of os pathname)) as Hne.
  pose proof Hl as (Hr & Hprev & Hnext).
  rewrite Hi in Hprev. cbn in Hprev.
  split; [now rewrite Hp|].
  split; [exact Hi|].
  split; [exact Hl|].
  split; [rewrite Hi; exact Ht|].
  split; [exact Hprev|].
  split; [|split; [|reflexivity]].
  - rewrite Hnext, Ht, Hp, Hi.
    destruct (Paged.new_pages_of os pathname) as [[|p ps]|e]; cbn; auto.
  - rewrite Hp. unfold Paged.new_pages_of.
    destruct (lower (splitext_ext os pathname) =? ".txt")%string; [exact I|].
    destruct (lower (splitext_ext os pathname) =? ".pdf")%string; [exact I|].
    destruct (lower (splitext_ext os pathname) =? ".epub")%string; [exact I|].
    reflexivity.
Qed.

(** An empty text file is one way to reach the placeholder. *)
Example load_empty_text_file :
  Paged.pages
    (Paged._load_file (stub_platform (Ok "") None None) "empty.txt"
       (Paged.ReaderPanel_init tts0))
  = ["(Empty Book or Extraction Failed)"].
Proof. reflexivity. Qed.

(** ** Page length (variant 2) *)

Lemma epub_loop_spec (items : list EpubItem) (acc : list string) :
  Paged.epub_loop items acc =
  (texts <- document_texts items ;;
   Ok (acc ++ flat_map section_pages texts)%list).
Proof.
  revert acc; induction items as [|item rest IH]; intros acc.
  - cbn. now rewrite app_nil_r.
  - cbn [Paged.epub_loop document_texts].
    destruct (get_type item =? ITEM_DOCUMENT); [|apply IH].
    destruct (get_text item) as [text|e]; [|reflexivity].
    cbn [bind].
    destruct (100 <? len (strip text)) eqn:Hkeep.
    + destruct (3000 <? len text) eqn:Hlong.
      * assert (Hs : section_pages text
                     = windows text 3000 (Z.to_nat (range_len 0 (len text) 3000)))
          by (unfold section_pages; now rewrite Hkeep, Hlong).
        unfold range. change (3000 =? 0) with false. cbn [bind].
        rewrite IH. destruct (document_texts rest); cbn [bind flat_map];
          [|reflexivity].
        rewrite Hs, <- app_assoc. reflexivity.
      * assert (Hs : section_pages text = [text])
          by (unfold section_pages; now rewrite Hkeep, Hlong).
        rewrite IH. destruct (document_texts rest); cbn [bind flat_map];
          [|reflexivity].
        rewrite Hs, <- app_assoc. reflexivity.
    + assert (Hs : section_pages text = [])
        by (unfold section_pages; now rewrite Hkeep).
      rewrite IH. destruct (document_texts rest); cbn [bind flat_map];
        [|reflexivity].
      rewrite Hs. reflexivity.
Qed.

Lemma read_epub_pages_spec (os : Platform) (path : string)
    (read_epub : string -> result EpubBook) (book : EpubBook) :
  epub os = Some read_epub -> read_epub path = Ok book ->
  Paged._read_epub_pages os path =
  match document_texts (get_items book) with
  | Ok texts => (title_pages book ++ flat_map section_pages texts)%list
  | Raise e => ["Error reading EPUB: " ++ e]
  end.
Proof.
  intros He Hb. unfold Paged._read_epub_pages. rewrite He, Hb.
  cbn [bind]. fold (title_pages book). rewrite epub_loop_spec.
  destruct (document_texts (get_items book)); reflexivity.
Qed.

Lemma section_pages_bound (text p : string) :
  In p (section_pages text) -> 0 < len p <= 3000.
Proof.
  unfold section_pages.
  destruct (Z.ltb_spec 100 (len (strip text))) as [Hkeep|]; [|contradiction].
  destruct (Z.ltb_spec 3000 (len text)).
  - apply (windows_chunking text 3000); lia.
  - intros [<-|[]]. split; [|lia].
    destruct text as [|ch text]; [cbn in Hkeep; lia|].
    unfold len. cbn. lia.
Qed.

Lemma placeholder_len : len Paged.placeholder <= 3000.
Proof. vm_compute. discriminate. Qed.

(** C2 as stated fails: loading a PDF whose single physical page holds 3001
    characters produces a page of 3001 characters. *)
Lemma C2_pdf_page_exceeds_chunk_size :
  ~ (forall p,
       In p (Paged.pages (Paged._load_file pdf_one_long_page "book.pdf"
                            (Paged.ReaderPanel_init tts0))) ->
       len p <= 3000).
Proof.
  intros Hbound.
  specialize (Hbound (repeat_char "a" 3001)).
  assert (Hlen : len (repeat_char "a" 3001) = 3001) by (vm_compute; reflexivity).
  rewrite Hlen in Hbound.
  assert (Hin : In (repeat_char "a" 3001)
                  (Paged.pages (Paged._load_file pdf_one_long_page "book.pdf"
                                  (Paged.ReaderPanel_init tts0)))).
  { rewrite load_file_pages. left. vm_compute. reflexivity. }
  specialize (Hbound Hin). lia.
Qed.

(** C2 (amended).  Every page installed by loading a readable text file has
    at most 3000 characters, and so does every page installed by loading an
    EPUB book except its title page; PDF pages are the extracted physical
    pages and carry no bound. *)
Theorem C2_text_and_epub_pages_bounded (os : Platform) (pathname : string)
    (self : Paged.ReaderPanel) (p : string)
    (Hin : In p (Paged.pages (Paged._load_file os pathname self))) :
  (lower (splitext_ext os pathname) = ".txt" ->
   forall content, open_read os pathname = Ok content ->
   len p <= 3000) /\
  (lower (splitext_ext os pathname) = ".epub" ->
   forall read_epub book texts,
     epub os = Some read_epub -> read_epub pathname = Ok book ->
     document_texts (get_items book) = Ok texts ->
     In p (title_pages book) \/ len p <= 3000).
Proof.
  rewrite load_file_pages in Hin. unfold Paged.new_pages_of in Hin. split.
  - intros Hext content Hread. rewrite Hext in Hin. cbn [String.eqb] in Hin.
    change ((".txt" =? ".txt")%string) with true in Hin. cbv iota in Hin.
    rewrite (read_txt_pages_chunk_text os pathname content Hread) in Hin.
    rewrite chunk_text_windows in Hin by lia.
    pose proof (windows_chunking content 3000 ltac:(lia)) as (_ & _ & _ & Hb & _).
    destruct (windows content 3000 _) as [|q qs] eqn:Hw; cbn in Hin.
    + destruct Hin as [<-|[]]. apply placeholder_len.
    + apply Hb. exact Hin.
  - intros Hext read_epub book texts He Hb Ht. rewrite Hext in Hin.
    change ((".epub" =? ".txt")%string) with false in Hin.
    change ((".epub" =? ".pdf")%string) with false in Hin.
    change ((".epub" =? ".epub")%string) with true in Hin. cbv iota in Hin.
    rewrite (read_epub_pages_spec os pathname read_epub book He Hb), Ht in Hin.
    assert (Hall : forall q, In q (title_pages book ++ flat_map section_pages texts) ->
                     In q (title_pages book) \/ len q <= 3000).
    { intros q Hq. apply in_app_or in Hq. destruct Hq as [Hq|Hq]; [now left|].
      right. apply in_flat_map in Hq. destruct Hq as (text & _ & Hq).
      now apply section_pages_bound in Hq. }
    destruct (title_pages book ++ flat_map section_pages texts)%list
      as [|q qs] eqn:Hw; cbn in Hin.
    + destruct Hin as [<-|[]]. right. apply placeholder_len.
    + apply Hall. exact Hin.
Qed.

Lemma C2_text_and_epub_pages_bounded_witness : len "hello" <= 3000.
Proof.
  refine (proj1 (C2_text_and_epub_pages_bounded hello_txt "hello.txt"
                   (Paged.ReaderPanel_init tts0) "hello" _) _ "hello" _).
  - left. reflexivity.
  - reflexivity.
  - reflexivity.
Defined.

(** ** Navigation in the page view (variant 2) *)

Lemma on_next_page_last (s : Paged.ReaderPanel) :
  Z.of_nat (List.length (Paged.pages s)) - 1 <= Paged.current_page_idx s ->
  Paged.on_next_page s = s.
Proof.
  intros Hlast. unfold Paged.on_next_page.
  destruct (Z.ltb_spec (Paged.current_page_idx s)
              (Z.of_nat (List.length (Paged.pages s)) - 1)); [lia|reflexivity].
Qed.

Lemma on_prev_page_first (s : Paged.ReaderPanel) :
  Paged.current_page_idx s <= 0 -> Paged.on_prev_page s = s.
Proof.
  intros Hfirst. unfold Paged.on_prev_page.
  destruct (Z.ltb_spec 0 (Paged.current_page_idx s)); [lia|reflexivity].
Qed.

Lemma on_next_page_moves (s : Paged.ReaderPanel) :
  loaded s ->
  Paged.current_page_idx s < Z.of_nat (List.length (Paged.pages s)) - 1 ->
  Paged.current_page_idx (Paged.on_next_page s) = Paged.current_page_idx s + 1 /\
  Paged.pages (Paged.on_next_page s) = Paged.pages s /\
  loaded (Paged.on_next_page s) /\
  Paged.tts_service (Paged.on_next_page s) = Tts.stop (Paged.tts_service s).
Proof.
  intros (Hr & _) Hlt. unfold Paged.on_next_page.
  destruct (Z.ltb_spec (Paged.current_page_idx s)
              (Z.of_nat (List.length (Paged.pages s)) - 1)); [|lia].
  set (s1 := Paged.set_tts_service _ _).
  assert (Hr1 : 0 <= Paged.current_page_idx s1
                < Z.of_nat (List.length (Paged.pages s1))) by (cbn; lia).
  split; [|split; [|split]].
  - rewrite update_display_in_range by exact Hr1. reflexivity.
  - now rewrite update_display_pages.
  - now apply update_display_loaded.
  - now rewrite update_display_tts.
Qed.

Lemma on_prev_page_moves (s : Paged.ReaderPanel) :
  loaded s ->
  0 < Paged.current_page_idx s ->
  Paged.current_page_idx (Paged.on_prev_page s) = Paged.current_page_idx s - 1 /\
  Paged.pages (Paged.on_prev_page s) = Paged.pages s /\
  loaded (Paged.on_prev_page s) /\
  Paged.tts_service (Paged.on_prev_page s) = Tts.stop (Paged.tts_service s).
Proof.
  intros (Hr & _) Hlt. unfold Paged.on_prev_page.
  destruct (Z.ltb_spec 0 (Paged.current_page_idx s)); [|lia].
  set (s1 := Paged.set_tts_service _ _).
  assert (Hr1 : 0 <= Paged.current_page_idx s1
                < Z.of_nat (List.length (Paged.pages s1))) by (cbn; lia).
  split; [|split; [|split]].
  - rewrite update_display_in_range by exact Hr1. reflexivity.
  - now rewrite update_display_pages.
  - now apply update_display_loaded.
  - now rewrite update_display_tts.
Qed.

Lemma map_seq_succ (f : nat -> Z) (n : nat) :
  map f (seq 1 n) = map (fun k => f (S k)) (seq 0 n).
Proof. now rewrite <- seq_shift, map_map. Qed.

(** Walking forward from a loaded panel that is [d] pages before the end. *)
Lemma next_until_end_walk (d fuel : nat) (s : Paged.ReaderPanel) :
  loaded s ->
  Z.of_nat (List.length (Paged.pages s)) - 1 - Paged.current_page_idx s = Z.of_nat d ->
  (d <= fuel)%nat ->
  exists e,
    Paged.next_until_end fuel s
    = (map (fun k => Paged.current_page_idx s + Z.of_nat k) (seq 0 (S d)), e) /\
    loaded e /\ Paged.pages e = Paged.pages s /\
    Paged.current_page_idx e = Z.of_nat (List.length (Paged.pages s)) - 1 /\
    Paged.next_btn e = false.
Proof.
  revert fuel s; induction d as [|d IH]; intros fuel s Hs Hd Hfuel.
  - exists s. pose proof Hs as (Hr & _ & Hnext).
    assert (Hb : Paged.next_btn s = false).
    { rewrite Hnext. apply Z.ltb_ge. lia. }
    split; [|split; [exact Hs|split; [reflexivity|split; [lia|exact Hb]]]].
    cbn [seq map]. rewrite Z.add_0_r.
    destruct fuel; cbn [Paged.next_until_end]; [reflexivity|now rewrite Hb].
  - destruct fuel as [|fuel]; [lia|].
    pose proof Hs as (Hr & _ & Hnext).
    assert (Hb : Paged.next_btn s = true).
    { rewrite Hnext. apply Z.ltb_lt. lia. }
    destruct (on_next_page_moves s Hs ltac:(lia)) as (Hi & Hp & Hl & _).
    destruct (IH fuel (Paged.on_next_page s) Hl ltac:(rewrite Hp, Hi; lia) ltac:(lia))
      as (e & Hrun & He & Hpe & Hie & Hbe).
    exists e. cbn [Paged.next_until_end]. rewrite Hb, Hrun.
    rewrite Hp in *.
    split; [|split; [exact He|split; [exact Hpe|split; [exact Hie|exact Hbe]]]].
    f_equal. change (seq 0 (S (S d))) with (0%nat :: seq 1 (S d)).
    cbn [map]. rewrite Z.add_0_r. f_equal.
    rewrite map_seq_succ. apply map_ext. intros k. rewrite Hi. lia.
Qed.

(** Walking backward from a loaded panel showing page [d]. *)
Lemma prev_until_start_walk (d fuel : nat) (s : Paged.ReaderPanel) :
  loaded s ->
  Paged.current_page_idx s = Z.of_nat d ->
  (d <= fuel)%nat ->
  exists b,
    Paged.prev_until_start fuel s
    = (map (fun k => Paged.current_page_idx s - Z.of_nat k) (seq 0 (S d)), b) /\
    loaded b /\ Paged.pages b = Paged.pages s /\
    Paged.current_page_idx b = 0 /\
    Paged.prev_btn b = false.
Proof.
  revert fuel s; induction d as [|d IH]; intros fuel s Hs Hd Hfuel.
  - exists s. pose proof Hs as (Hr & Hprev & _).
    assert (Hb : Paged.prev_btn s = false).
    { rewrite Hprev. apply Z.ltb_ge. lia. }
    split; [|split; [exact Hs|split; [reflexivity|split; [lia|exact Hb]]]].
    cbn [seq map]. rewrite Z.sub_0_r.
    destruct fuel; cbn [Paged.prev_until_start]; [reflexivity|now rewrite Hb].
  - destruct fuel as [|fuel]; [lia|].
    pose proof Hs as (Hr & Hprev & _).
    assert (Hb : Paged.prev_btn s = true).
    { rewrite Hprev. apply Z.ltb_lt. lia. }
    destruct (on_prev_page_moves s Hs ltac:(lia)) as (Hi & Hp & Hl & _).
    destruct (IH fuel (Paged.on_prev_page s) Hl ltac:(rewrite Hi; lia) ltac:(lia))
      as (b & Hrun & Hlb & Hpb & Hib & Hbb).
    exists b. cbn [Paged.prev_until_start]. rewrite Hb, Hrun.
    rewrite Hp in *.
    split; [|split; [exact Hlb|split; [exact Hpb|split; [exact Hib|exact Hbb]]]].
    f_equal. change (seq 0 (S (S d))) with (0%nat :: seq 1 (S d)).
    cbn [map]. rewrite Z.sub_0_r. f_equal.
    rewrite map_seq_succ. apply map_ext. intros k. rewrite Hi. lia.
Qed.

Lemma rev_indices (n : nat) :
  rev (map Z.of_nat (seq 0 n))
  = map (fun k => Z.of_nat n - 1 - Z.of_nat k) (seq 0 n).
Proof.
  induction n as [|n IH]; [reflexivity|].
  rewrite seq_S at 1. rewrite map_app, rev_app_distr. cbn [map rev app].
  change (seq 0 (S n)) with (0%nat :: seq 1 n). cbn [map].
  f_equal; [lia|]. rewrite IH, map_seq_succ. apply map_ext. intros k. lia.
Qed.

(** C4.  On a loaded page view, [on_next_page] at the last page and
    [on_prev_page] at the first page change nothing; anywhere else they
    move the index by exactly one and keep the pages.  Hence, from index 0,
    pressing Next while it is enabled shows the indices [0, 1, ..., n-1]
    in this order (each once) and stops with Next disabled, and pressing
    Prev while it is enabled then shows the same indices backwards and
    stops at index 0. *)
Theorem C4_navigation (s : Paged.ReaderPanel) (Hs : loaded s) :
  let n := List.length (Paged.pages s) in
  let idx := Paged.current_page_idx in
  (idx s = Z.of_nat n - 1 -> Paged.on_next_page s = s) /\
  (idx s = 0 -> Paged.on_prev_page s = s) /\
  (idx s < Z.of_nat n - 1 ->
     idx (Paged.on_next_page s) = idx s + 1 /\
     Paged.pages (Paged.on_next_page s) = Paged.pages s /\
     loaded (Paged.on_next_page s)) /\
  (0 < idx s ->
     idx (Paged.on_prev_page s) = idx s - 1 /\
     Paged.pages (Paged.on_prev_page s) = Paged.pages s /\
     loaded (Paged.on_prev_page s)) /\
  (idx s = 0 ->
     forall fuel, (n <= fuel)%nat ->
     exists e b,
       Paged.next_until_end fuel s = (map Z.of_nat (seq 0 n), e) /\
       Paged.next_btn e = false /\
       Paged.prev_until_start fuel e = (rev (map Z.of_nat (seq 0 n)), b) /\
       Paged.prev_btn b = false /\
       idx b = 0).
Proof.
  cbn zeta. split; [|split; [|split; [|split]]].
  - intros Hlast. apply on_next_page_last. lia.
  - intros Hfirst. apply on_prev_page_first. lia.
  - intros Hlt. destruct (on_next_page_moves s Hs Hlt) as (Hi & Hp & Hl & _). auto.
  - intros Hlt. destruct (on_prev_page_moves s Hs Hlt) as (Hi & Hp & Hl & _). auto.
  - intros H0 fuel Hfuel. pose proof Hs as (Hr & _).
    set (n := List.length (Paged.pages s)) in *.
    assert (Hn : n = S (n - 1)) by lia.
    destruct (next_until_end_walk (n - 1) fuel s Hs ltac:(fold n; lia) ltac:(lia))
      as (e & Hrun & He & Hpe & Hie & Hbe).
    destruct (prev_until_start_walk (n - 1) fuel e He
                ltac:(rewrite Hie; fold n; lia) ltac:(lia))
      as (b & Hback & _ & _ & Hib & Hbb).
    exists e, b. rewrite <- Hn in Hrun, Hback.
    split; [|split; [exact Hbe|split; [|split; [exact Hbb|exact Hib]]]].
    + rewrite Hrun. f_equal. apply map_ext. intros k. rewrite H0. lia.
    + rewrite Hback, rev_indices. f_equal. apply map_ext. intros k.
      rewrite Hie. fold n. lia.
Qed.

Lemma C4_navigation_witness :
  exists e b,
    Paged.next_until_end 3 three_pages = ([0; 1; 2], e) /\
    Paged.next_btn e = false /\
    Paged.prev_until_start 3 e = ([2; 1; 0], b) /\
    Paged.prev_btn b = false /\
    Paged.current_page_idx b = 0.
Proof.
  assert (Hs : loaded three_pages).
  { unfold loaded. vm_compute. repeat split; discriminate. }
  exact (proj2 (proj2 (proj2 (proj2 (C4_navigation three_pages Hs))))
           eq_refl 3%nat (le_n 3)).
Defined.

(** ** Search in the text view (variants 0 and 1) *)


Lemma index_ge (n m : nat) (s1 s2 : string) :
  index n s1 s2 = Some m -> (n <= m)%nat.
Proof.
  revert n m; induction s2 as [|b s2 IH]; intros n m; cbn.
  - destruct n; [lia|discriminate].
  - destruct n as [|n]; [lia|].
    destruct (index n s1 s2) as [r|] eqn:Hr; [|discriminate].
    intros [= <-]. apply IH in Hr. lia.
Qed.

(** An occurrence of a non-empty string lies inside the text. *)
Lemma occurrence_inside (s sub : string) (i : nat) :
  sub <> "" -> substring i (String.length sub) s = sub ->
  (i + String.length sub <= String.length s)%nat.
Proof.
  intros Hne Hocc.
  pose proof (substring_length s i (String.length sub)) as Hl.
  rewrite Hocc in Hl.
  assert (0 < String.length sub)%nat by (destruct sub; [contradiction|cbn; lia]).
  lia.
Qed.

(** [s.find(sub, start)] for a non-empty [sub] and [start >= 0]: either
    [-1] and no occurrence from [start] on, or the first occurrence from
    [start] on. *)
Lemma find_spec (s sub : string) (start : Z) :
  sub <> "" -> 0 <= start ->
  (find s sub start = -1 /\
   forall i, start <= i -> substring (Z.to_nat i) (String.length sub) s <> sub)
  \/
  (start <= find s sub start /\
   substring (Z.to_nat (find s sub start)) (String.length sub) s = sub /\
   forall i, start <= i < find s sub start ->
     substring (Z.to_nat i) (String.length sub) s <> sub).
Proof.
  intros Hne Hstart. unfold find.
  destruct (Z.ltb_spec start 0); [lia|].
  destruct (Z.ltb_spec (len s - start) (len sub)) as [Hshort|Hroom].
  - left. split; [reflexivity|]. intros i Hi Hocc.
    apply occurrence_inside in Hocc; [|assumption]. unfold len in *. lia.
  - destruct (index (Z.to_nat start) sub s) as [r|] eqn:Hidx.
    + right. pose proof (index_ge _ _ _ _ Hidx).
      rewrite Nat2Z.id. split; [lia|]. split.
      * exact (index_correct1 _ _ _ _ Hidx).
      * intros i Hi. apply (index_correct2 _ _ _ _ Hidx); lia.
    + left. split; [reflexivity|]. intros i Hi.
      apply (index_correct3 _ _ _ _ Hidx Hne). lia.
Qed.

Lemma lower_nonempty (s : string) : s <> "" -> lower s <> "".
Proof. destruct s; [contradiction|discriminate]. Qed.


(** The outcome of a search with a non-empty term, by the two [find] calls. *)
Lemma search_unfold (h term : string) (k : Z) :
  term <> "" ->
  Scroll.search h term k =
  let first := find (lower h) (lower term) (k + 1) in
  let found_pos := if first =? -1 then find (lower h) (lower term) 0 else first in
  if found_pos =? -1 then Scroll.NotFound else Scroll.FoundAt found_pos.
Proof.
  intros Hne. unfold Scroll.search, Scroll.on_search. cbn [Scroll.search_box].
  destruct term; [contradiction|]. cbn [truthy negb Scroll.text_ctrl
    Scroll.value Scroll.insertion_point]. cbn zeta.
  destruct (find (lower h) (lower (String a term)) (k + 1) =? -1).
  - destruct (find (lower h) (lower (String a term)) 0 =? -1); reflexivity.
  - destruct (find (lower h) (lower (String a term)) (k + 1) =? -1); reflexivity.
Qed.






(** ** The speech coordinator *)

(** C10.  Whatever the worker's engine does ([pyttsx3.init], [say] or
    [runAndWait] returning or raising, an [Exception] or not),
    [_speak_thread] leaves [is_speaking] at [False]: an [Exception] is
    printed and swallowed, any other exception propagates, and in both
    cases the [finally] clause has reset the flag. *)
Theorem C10_flag_reset_in_finally (f : Tts.Fault) (text : string) (w : Tts.World) :
  let (r, w') := Tts._speak_thread f text w in
  is_speaking (Tts.self_ w') = false /\
  engine (Tts.self_ w') = engine (Tts.self_ w) /\
  match f with
  | Tts.NoFault =>
      r = inl tt /\ Tts.audio w' = (Tts.audio w ++ [text])%list
  | Tts.InitRaises e | Tts.SayRaises e | Tts.RunRaises e =>
      Tts.audio w' = Tts.audio w /\
      match e with
      | Tts.Exception msg =>
          r = inl tt /\
          Tts.stdout w' = (Tts.stdout w ++ [("TTS Error: " ++ msg)%string])%list
      | Tts.BaseException _ => r = inr e
      end
  end.
Proof.
  destruct f as [|[msg|msg]|[msg|msg]|[msg|msg]]; cbn; repeat split.
Qed.

(** C6 as stated fails: after [speak("x")] and [speak("y")] both workers
    run and the audio device plays "x" as well as "y". *)
Lemma C6_earlier_utterance_still_plays :
  let w := Tts.run [Tts.CallSpeak "x"; Tts.CallSpeak "y";
                    Tts.WorkerRuns 0 Tts.NoFault; Tts.WorkerRuns 1 Tts.NoFault]
                   (Tts.boot (Ok {| stop_calls := 0 |})) in
  Tts.audio w = ["x"; "y"] /\ Tts.audio w <> ["y"].
Proof. cbn. split; [reflexivity|discriminate]. Qed.

(** C6 (amended).  With an engine available, [speak(x)] immediately
    followed by [speak(y)] calls [stop()] before starting the worker of
    [y]: [engine.stop()] is called once on the coordinator's engine and
    the flag is cleared, then set again.  One worker is started per
    request and the worker of [x] stays started.  When the two workers
    then run, in either order and with engines that do not fail, each
    hands its text to [say] and [runAndWait]: both [x] and [y] are played,
    and the flag ends [False].  Only the flag is superseded. *)
Theorem C6_speak_restarts_flag_only (x y : string) (e : Engine) :
  let w1 := Tts.run [Tts.CallSpeak x] (Tts.boot (Ok e)) in
  let w2 := Tts.run [Tts.CallSpeak y] w1 in
  Tts.self_ w1 = {| engine := Some e; is_speaking := true |} /\
  Tts.speak y (Tts.self_ w1)
  = (set_is_speaking true (Tts.stop (Tts.self_ w1)), Some y) /\
  Tts.self_ w2 = {| engine := Some (engine_stop e); is_speaking := true |} /\
  Tts.started w2 = [(x, false); (y, false)] /\
  Tts.audio w2 = [] /\
  Tts.audio (Tts.run [Tts.WorkerRuns 0 Tts.NoFault; Tts.WorkerRuns 1 Tts.NoFault] w2)
  = [x; y] /\
  Tts.audio (Tts.run [Tts.WorkerRuns 1 Tts.NoFault; Tts.WorkerRuns 0 Tts.NoFault] w2)
  = [y; x] /\
  is_speaking (Tts.self_ (Tts.run [Tts.WorkerRuns 0 Tts.NoFault;
                                    Tts.WorkerRuns 1 Tts.NoFault] w2)) = false.
Proof. cbn. repeat split. Qed.

(** ** PDF extraction *)

Lemma pdf_loop_spec (texts acc : list string) :
  Paged.pdf_loop (map Ok texts) acc = Ok (acc ++ filter has_text texts)%list.
Proof.
  revert acc; induction texts as [|txt texts IH]; intros acc.
  - cbn. now rewrite app_nil_r.
  - cbn [map Paged.pdf_loop bind filter]. rewrite IH. unfold has_text.
    destruct (truthy (strip txt)); [now rewrite <- app_assoc|reflexivity].
Qed.

(** Variant 2: the pages with text, in page order, or one diagnostic
    section when there is none. *)
Lemma read_pdf_pages_spec (os : Platform) (path : string)
    (reader : string -> result (list (result string))) (texts : list string) :
  PdfReader os = Some reader -> reader path = Ok (map Ok texts) ->
  Paged._read_pdf_pages os path =
  match filter has_text texts with
  | [] => ["No text found in PDF."]
  | kept => kept
  end.
Proof.
  intros Hlib Hread. unfold Paged._read_pdf_pages. rewrite Hlib, Hread.
  cbn [bind]. rewrite pdf_loop_spec. cbn [bind app try_except].
  destruct (filter has_text texts); reflexivity.
Qed.

Lemma pdf_comprehension_spec (texts : list string) :
  Ice.pdf_comprehension (map Ok texts) = Ok (filter has_text texts).
Proof.
  induction texts as [|txt texts IH]; [reflexivity|].
  cbn [map Ice.pdf_comprehension bind filter]. rewrite IH. unfold has_text.
  destruct (truthy (strip txt)); reflexivity.
Qed.

(** Variant 3: the pages with text, in page order, and nothing else. *)
Lemma ice_read_pdf_spec (os : Platform) (path : string)
    (reader : string -> result (list (result string))) (texts : list string) :
  PdfReader os = Some reader -> reader path = Ok (map Ok texts) ->
  Ice._read_pdf os path = filter has_text texts.
Proof.
  intros Hlib Hread. unfold Ice._read_pdf. rewrite Hlib, Hread.
  cbn [bind]. now rewrite pdf_comprehension_spec.
Qed.

(** One blank page and one page of text give a one-page session in both
    page views. *)
Example pdf_blank_page_dropped :
  Paged.pages (Paged._load_file pdf_blank_then_text "book.pdf"
                 (Paged.ReaderPanel_init tts0)) = ["Chapter 1"] /\
  Ice.pages (Ice.open_book pdf_blank_then_text "book.pdf"
               (Ice.ReaderPanel_init tts0)) = ["Chapter 1"].
Proof. split; reflexivity. Qed.

(** C7.  For a PDF without any extractable text, [_read_pdf] of variant 3
    returns the empty sequence and the book opens with no page at all,
    where [_read_pdf_pages] of variant 2 returns the diagnostic section
    "No text found in PDF.". *)
Theorem C7_ice_read_pdf_without_text_is_empty :
  Ice._read_pdf pdf_blank_page "scan.pdf" = [] /\
  Ice.pages (Ice.open_book pdf_blank_page "scan.pdf" (Ice.ReaderPanel_init tts0))
  = [] /\
  Paged._read_pdf_pages pdf_blank_page "scan.pdf" = ["No text found in PDF."].
Proof. repeat split. Qed.

(** ** EPUB sections *)

(** Variant 2: what becomes of one section. *)
Lemma section_pages_cases (text : string) :
  (len (strip text) <= 100 -> section_pages text = []) /\
  (100 < len (strip text) -> len text <= 3000 -> section_pages text = [text]) /\
  (100 < len (strip text) -> 3000 < len text ->
     Ice._chunk_text text 3000 = Ok (section_pages text) /\
     join (section_pages text) = text /\
     (forall k, (S k < List.length (section_pages text))%nat ->
        len (nth k (section_pages text) "") = 3000) /\
     (forall p, In p (section_pages text) -> 0 < len p <= 3000)).
Proof.
  unfold section_pages. split; [|split].
  - intros Hdrop. destruct (Z.ltb_spec 100 (len (strip text))); [lia|reflexivity].
  - intros Hkeep Hshort.
    destruct (Z.ltb_spec 100 (len (strip text))); [|lia].
    destruct (Z.ltb_spec 3000 (len text)); [lia|reflexivity].
  - intros Hkeep Hlong.
    destruct (Z.ltb_spec 100 (len (strip text))); [|lia].
    destruct (Z.ltb_spec 3000 (len text)); [|lia].
    destruct (windows_chunking text 3000 ltac:(lia)) as (Hj & _ & Hfull & Hb & _).
    split; [apply chunk_text_windows; lia|]. auto.
Qed.

Lemma ice_epub_loop_spec (items : list EpubItem) (acc : list string) :
  Ice.epub_loop items acc =
  (texts <- document_texts items ;;
   Ok (acc ++ filter (fun text => 200 <? len text) texts)%list).
Proof.
  revert acc; induction items as [|item rest IH]; intros acc.
  - cbn. now rewrite app_nil_r.
  - cbn [Ice.epub_loop document_texts].
    destruct (get_type item =? ITEM_DOCUMENT); [|apply IH].
    destruct (get_text item) as [text|e]; [|reflexivity].
    cbn [bind]. destruct (200 <? len text) eqn:Hkeep; rewrite IH;
      destruct (document_texts rest); cbn [bind filter]; try reflexivity;
      rewrite Hkeep; [now rewrite <- app_assoc|reflexivity].
Qed.

(** C8.  For an EPUB book whose only section has 3001 characters,
    [_read_epub] of variant 3 returns that section as a single page of 3001
    characters, where [_read_epub_pages] of variant 2 splits it into a
    window of 3000 characters and a window of one. *)
Theorem C8_ice_read_epub_keeps_long_section_whole :
  Ice._read_epub epub_long_section "book.epub" = [repeat_char "a" 3001] /\
  map len (Ice._read_epub epub_long_section "book.epub") = [3001] /\
  map len (Paged._read_epub_pages epub_long_section "book.epub") = [3000; 1].
Proof. vm_compute. repeat split. Qed.

(** ** Navigation and speech *)

Lemma tts_wf_init (r : result Engine) : tts_wf (TTSService_init r).
Proof. unfold tts_wf. reflexivity. Qed.

Lemma tts_wf_stop (t : TTSService) : tts_wf t -> tts_wf (Tts.stop t).
Proof.
  unfold tts_wf, Tts.stop. intros Hwf.
  destruct (engine t) eqn:He; [|now rewrite He].
  destruct (is_speaking t); cbn; [discriminate|now rewrite He].
Qed.

Lemma tts_wf_speak (text : string) (t : TTSService) :
  tts_wf t -> tts_wf (fst (Tts.speak text t)).
Proof.
  unfold tts_wf, Tts.speak, Tts.stop. intros Hwf.
  destruct (engine t) eqn:He; [|cbn; now rewrite He].
  destruct (is_speaking t); cbn; rewrite ?He; discriminate.
Qed.

Lemma stop_clears_flag (t : TTSService) :
  tts_wf t -> is_speaking (Tts.stop t) = false.
Proof.
  unfold tts_wf, Tts.stop. intros Hwf.
  destruct (engine t); [|auto].
  destruct (is_speaking t) eqn:Hs; [reflexivity|exact Hs].
Qed.

Lemma speak_thread_self (f : Tts.Fault) (text : string) (w : Tts.World) :
  Tts.self_ (snd (Tts._speak_thread f text w))
  = set_is_speaking false (Tts.self_ w).
Proof. destruct f as [|[msg|msg]|[msg|msg]|[msg|msg]]; reflexivity. Qed.

Lemma tts_wf_step (ev : Tts.Event) (w : Tts.World) :
  tts_wf (Tts.self_ w) -> tts_wf (Tts.self_ (Tts.step ev w)).
Proof.
  intros Hwf. destruct ev as [text| |i f]; cbn [Tts.step].
  - pose proof (tts_wf_speak text _ Hwf) as Hs.
    destruct (Tts.speak text (Tts.self_ w)). exact Hs.
  - now apply tts_wf_stop.
  - destruct (nth_error (Tts.started w) i) as [[text [|]]|]; try assumption.
    cbn [Tts.self_]. rewrite speak_thread_self. unfold tts_wf. reflexivity.
Qed.

(** Every coordinator state the program can reach is well formed. *)
Lemma tts_wf_run (evs : list Tts.Event) (r : result Engine) :
  tts_wf (Tts.self_ (Tts.run evs (Tts.boot r))).
Proof.
  unfold Tts.run.
  assert (Hgen : forall w, tts_wf (Tts.self_ w) ->
            tts_wf (Tts.self_ (fold_left (fun w ev => Tts.step ev w) evs w))).
  { induction evs as [|ev evs IH]; intros w Hw; [exact Hw|].
    cbn [fold_left]. apply IH. now apply tts_wf_step. }
  apply Hgen. apply tts_wf_init.
Qed.

(** Variant 2: a navigation that moves the index has called [stop()], and
    the coordinator no longer reports speaking. *)
Lemma paged_navigation_stops_speech (s : Paged.ReaderPanel) :
  loaded s -> tts_wf (Paged.tts_service s) ->
  (Paged.current_page_idx (Paged.on_next_page s) <> Paged.current_page_idx s ->
   Paged.tts_service (Paged.on_next_page s) = Tts.stop (Paged.tts_service s) /\
   is_speaking (Paged.tts_service (Paged.on_next_page s)) = false) /\
  (Paged.current_page_idx (Paged.on_prev_page s) <> Paged.current_page_idx s ->
   Paged.tts_service (Paged.on_prev_page s) = Tts.stop (Paged.tts_service s) /\
   is_speaking (Paged.tts_service (Paged.on_prev_page s)) = false).
Proof.
  intros Hs Hwf. split; intros Hmoved.
  - destruct (Z.lt_ge_cases (Paged.current_page_idx s)
                (Z.of_nat (List.length (Paged.pages s)) - 1)) as [Hlt|Hge].
    + destruct (on_next_page_moves s Hs Hlt) as (_ & _ & _ & Htts).
      rewrite Htts. split; [reflexivity|now apply stop_clears_flag].
    + rewrite on_next_page_last in Hmoved by lia. contradiction.
  - destruct (Z.lt_ge_cases 0 (Paged.current_page_idx s)) as [Hlt|Hge].
    + destruct (on_prev_page_moves s Hs Hlt) as (_ & _ & _ & Htts).
      rewrite Htts. split; [reflexivity|now apply stop_clears_flag].
    + rewrite on_prev_page_first in Hmoved by lia. contradiction.
Qed.

(** Variant 3: navigation never touches the coordinator. *)
Lemma ice_navigation_keeps_tts (s : Ice.ReaderPanel) :
  Ice.tts_service (Ice.on_next s) = Ice.tts_service s /\
  Ice.tts_service (Ice.on_prev s) = Ice.tts_service s.
Proof.
  unfold Ice.on_next, Ice.on_prev, Ice.update_display. split.
  - destruct (_ <? _); [|reflexivity]. cbn. destruct (Ice.pages s); reflexivity.
  - destruct (_ <? _); [|reflexivity]. cbn. destruct (Ice.pages s); reflexivity.
Qed.

(** C9.  In variant 3, with the first of two pages being read aloud,
    [on_next] moves to the second page and [on_prev] back without calling
    [stop()]: the coordinator is untouched and still reports speaking. *)
Theorem C9_ice_navigation_keeps_speaking :
  is_speaking (Ice.tts_service ice_listening) = true /\
  Ice.current_page_idx ice_listening = 0 /\
  Ice.current_page_idx (Ice.on_next ice_listening) = 1 /\
  Ice.tts_service (Ice.on_next ice_listening) = Ice.tts_service ice_listening /\
  is_speaking (Ice.tts_service (Ice.on_next ice_listening)) = true /\
  Ice.current_page_idx (Ice.on_prev (Ice.on_next ice_listening)) = 0 /\
  is_speaking (Ice.tts_service (Ice.on_prev (Ice.on_next ice_listening))) = true.
Proof. repeat split. Qed.


(** * Further properties of the code *)

(** ** The display of the page view (variant 2) *)

Lemma update_display_page_display (s : Paged.ReaderPanel) :
  Paged.pages s <> [] ->
  Paged._update_display s
  = page_display (Paged.tts_service s) (Paged.pages s)
      (Z.max 0 (Z.min (Paged.current_page_idx s)
                  (Z.of_nat (List.length (Paged.pages s)) - 1)))
      (Paged.title_lbl s).
Proof.
  intros Hne. unfold Paged._update_display.
  destruct (Z.eqb_spec (Z.of_nat (List.length (Paged.pages s))) 0) as [H0|H0].
  - destruct (Paged.pages s); [contradiction|cbn in H0; lia].
  - reflexivity.
Qed.

Lemma page_display_shown (t : TTSService) (ps : list string) (i : Z) (title : string) :
  0 <= i < Z.of_nat (List.length ps) -> shown (page_display t ps i title).
Proof. intros Hi. unfold shown, loaded. cbn. auto. Qed.

Lemma update_display_idempotent (s : Paged.ReaderPanel) :
  Paged._update_display (Paged._update_display s) = Paged._update_display s.
Proof.
  destruct (Paged.pages s) as [|p ps] eqn:Hp.
  - unfold Paged._update_display. rewrite Hp. cbn. rewrite Hp. reflexivity.
  - assert (Hne : Paged.pages s <> []) by (rewrite Hp; discriminate).
    rewrite (update_display_page_display s Hne).
    set (i := Z.max 0 (Z.min _ _)).
    rewrite update_display_page_display by (cbn; exact Hne).
    cbn [page_display Paged.tts_service Paged.pages Paged.current_page_idx
         Paged.title_lbl].
    replace (Z.max 0 (Z.min i (Z.of_nat (List.length (Paged.pages s)) - 1)))
      with i; [reflexivity|].
    assert (0 < Z.of_nat (List.length (Paged.pages s))) by (rewrite Hp; cbn; lia).
    unfold i. lia.
Qed.

(** X1.  [_update_display] repairs any index: with pages present it shows
    the page at the index clamped into [0, total-1], with buttons and label
    agreeing; with no pages it blanks the view and disables both buttons.
    Calling it twice is the same as calling it once, and it never changes
    the pages, the title or the coordinator. *)
Theorem update_display_clamps (s : Paged.ReaderPanel) :
  let s' := Paged._update_display s in
  let total := Z.of_nat (List.length (Paged.pages s)) in
  Paged._update_display s' = s' /\
  Paged.pages s' = Paged.pages s /\
  Paged.title_lbl s' = Paged.title_lbl s /\
  Paged.tts_service s' = Paged.tts_service s /\
  match Paged.pages s with
  | [] =>
      Paged.text_ctrl s' = "" /\ Paged.page_lbl s' = "0/0" /\
      Paged.prev_btn s' = false /\ Paged.next_btn s' = false /\
      Paged.current_page_idx s' = Paged.current_page_idx s
  | _ :: _ =>
      shown s' /\
      Paged.current_page_idx s'
      = Z.max 0 (Z.min (Paged.current_page_idx s) (total - 1)) /\
      Paged.page_lbl s'
      = str (Paged.current_page_idx s' + 1) ++ " / " ++ str total
  end.
Proof.
  cbn zeta. split; [apply update_display_idempotent|].
  split; [apply update_display_pages|].
  destruct (Paged.pages s) as [|p ps] eqn:Hp.
  - unfold Paged._update_display. rewrite Hp. cbn. auto 10.
  - assert (Hne : Paged.pages s <> []) by (rewrite Hp; discriminate).
    rewrite (update_display_page_display s Hne). rewrite Hp.
    assert (Hr : 0 <= Z.max 0 (Z.min (Paged.current_page_idx s)
                         (Z.of_nat (List.length (p :: ps)) - 1))
                 < Z.of_nat (List.length (p :: ps))) by (cbn [List.length]; lia).
    split; [reflexivity|]. split; [reflexivity|].
    split; [now apply page_display_shown|]. split; reflexivity.
Qed.

(** ** Navigation as a round trip, and the panel over its lifetime *)

Lemma stop_idempotent (t : TTSService) : Tts.stop (Tts.stop t) = Tts.stop t.
Proof.
  unfold Tts.stop. destruct (engine t) eqn:He; [|now rewrite He].
  destruct (is_speaking t) eqn:Hs; cbn; [reflexivity|now rewrite He, Hs].
Qed.

Lemma on_next_page_display (t : TTSService) (ps : list string) (i : Z) (title : string) :
  0 <= i < Z.of_nat (List.length ps) - 1 ->
  Paged.on_next_page (page_display t ps i title)
  = page_display (Tts.stop t) ps (i + 1) title.
Proof.
  intros Hi. unfold Paged.on_next_page.
  cbn [page_display Paged.current_page_idx Paged.pages].
  destruct (Z.ltb_spec i (Z.of_nat (List.length ps) - 1)); [|lia].
  rewrite update_display_page_display by (cbn; destruct ps; [cbn in Hi; lia|discriminate]).
  cbn [Paged.set_tts_service Paged.set_current_page_idx Paged.tts_service
       Paged.pages Paged.current_page_idx Paged.title_lbl page_display].
  replace (Z.max 0 (Z.min (i + 1) (Z.of_nat (List.length ps) - 1)))
    with (i + 1) by lia.
  reflexivity.
Qed.

Lemma on_prev_page_display (t : TTSService) (ps : list string) (i : Z) (title : string) :
  0 < i < Z.of_nat (List.length ps) ->
  Paged.on_prev_page (page_display t ps i title)
  = page_display (Tts.stop t) ps (i - 1) title.
Proof.
  intros Hi. unfold Paged.on_prev_page.
  cbn [page_display Paged.current_page_idx Paged.pages].
  destruct (Z.ltb_spec 0 i); [|lia].
  rewrite update_display_page_display by (cbn; destruct ps; [cbn in Hi; lia|discriminate]).
  cbn [Paged.set_tts_service Paged.set_current_page_idx Paged.tts_service
       Paged.pages Paged.current_page_idx Paged.title_lbl page_display].
  replace (Z.max 0 (Z.min (i - 1) (Z.of_nat (List.length ps) - 1)))
    with (i - 1) by lia.
  reflexivity.
Qed.

(** A panel that [_update_display] leaves alone is a [page_display]. *)
Lemma displayed_is_page_display (s : Paged.ReaderPanel) :
  Paged._update_display s = s -> Paged.pages s <> [] ->
  s = page_display (Paged.tts_service s) (Paged.pages s)
        (Paged.current_page_idx s) (Paged.title_lbl s) /\
  0 <= Paged.current_page_idx s < Z.of_nat (List.length (Paged.pages s)).
Proof.
  intros Hd Hne. rewrite (update_display_page_display s Hne) in Hd.
  assert (Hi : Paged.current_page_idx s
               = Z.max 0 (Z.min (Paged.current_page_idx s)
                            (Z.of_nat (List.length (Paged.pages s)) - 1))).
  { rewrite <- Hd at 1. reflexivity. }
  assert (0 < Z.of_nat (List.length (Paged.pages s)))
    by (destruct (Paged.pages s); [contradiction|cbn; lia]).
  split; [|lia]. rewrite <- Hi in Hd. symmetry. exact Hd.
Qed.

(** X2.  On a displayed panel Next followed by Prev (when Next can move),
    and Prev followed by Next (when Prev can move), bring back exactly the
    same panel: same page, text, label and buttons.  The only trace is that
    the coordinator was stopped. *)
Theorem next_prev_round_trip (s : Paged.ReaderPanel)
    (Hd : Paged._update_display s = s) (Hne : Paged.pages s <> []) :
  (Paged.current_page_idx s < Z.of_nat (List.length (Paged.pages s)) - 1 ->
   Paged.on_prev_page (Paged.on_next_page s)
   = Paged.set_tts_service (Tts.stop (Paged.tts_service s)) s) /\
  (0 < Paged.current_page_idx s ->
   Paged.on_next_page (Paged.on_prev_page s)
   = Paged.set_tts_service (Tts.stop (Paged.tts_service s)) s).
Proof.
  destruct (displayed_is_page_display s Hd Hne) as (Hs & Hr).
  set (t := Paged.tts_service s) in *. set (ps := Paged.pages s) in *.
  set (i := Paged.current_page_idx s) in *. set (title := Paged.title_lbl s) in *.
  split; intros Hmove; rewrite Hs.
  - rewrite on_next_page_display by lia.
    rewrite on_prev_page_display by lia.
    rewrite stop_idempotent. replace (i + 1 - 1) with i by lia. reflexivity.
  - rewrite on_prev_page_display by lia.
    rewrite on_next_page_display by lia.
    rewrite stop_idempotent. replace (i - 1 + 1) with i by lia. reflexivity.
Qed.

Lemma next_prev_round_trip_witness :
  Paged.on_prev_page (Paged.on_next_page three_pages)
  = Paged.set_tts_service (Tts.stop (Paged.tts_service three_pages)) three_pages.
Proof.
  refine (proj1 (next_prev_round_trip three_pages _ _) _).
  - reflexivity.
  - discriminate.
  - vm_compute. reflexivity.
Defined.

Lemma shown_set_tts (t : TTSService) (s : Paged.ReaderPanel) :
  shown s -> shown (Paged.set_tts_service t s).
Proof. intros H. exact H. Qed.

Lemma blank_set_tts (t : TTSService) (s : Paged.ReaderPanel) :
  blank s -> blank (Paged.set_tts_service t s).
Proof. intros H. exact H. Qed.

Lemma load_file_shown (os : Platform) (pathname : string) (self : Paged.ReaderPanel) :
  shown (Paged._load_file os pathname self).
Proof.
  destruct (load_file_loaded os pathname self) as (Hl & Hi & Ht).
  split; [exact Hl|]. rewrite Hi. exact Ht.
Qed.

Lemma shown_is_page_display_like (s : Paged.ReaderPanel) :
  shown s ->
  Paged.pages s <> [] /\
  0 <= Paged.current_page_idx s < Z.of_nat (List.length (Paged.pages s)).
Proof.
  intros ((Hr & _) & _). split; [|exact Hr].
  destruct (Paged.pages s); [cbn in Hr; lia|discriminate].
Qed.

Lemma on_next_page_shown (s : Paged.ReaderPanel) :
  shown s -> shown (Paged.on_next_page s).
Proof.
  intros Hs. destruct (shown_is_page_display_like s Hs) as (Hne & Hr).
  unfold Paged.on_next_page.
  destruct (Z.ltb_spec (Paged.current_page_idx s)
              (Z.of_nat (List.length (Paged.pages s)) - 1)); [|exact Hs].
  rewrite update_display_page_display by exact Hne.
  apply page_display_shown. cbn. lia.
Qed.

Lemma on_prev_page_shown (s : Paged.ReaderPanel) :
  shown s -> shown (Paged.on_prev_page s).
Proof.
  intros Hs. destruct (shown_is_page_display_like s Hs) as (Hne & Hr).
  unfold Paged.on_prev_page.
  destruct (Z.ltb_spec 0 (Paged.current_page_idx s)); [|exact Hs].
  rewrite update_display_page_display by exact Hne.
  apply page_display_shown. cbn. lia.
Qed.

Lemma getitem_in_range (xs : list string) (i : Z) :
  0 <= i < Z.of_nat (List.length xs) ->
  getitem xs i = Ok (nth (Z.to_nat i) xs "").
Proof.
  intros Hi. unfold getitem.
  destruct (Z.ltb_spec i 0); [lia|].
  destruct (Z.leb_spec 0 i); [|lia].
  destruct (Z.ltb_spec i (Z.of_nat (List.length xs))); [reflexivity|lia].
Qed.

(** What [on_read_aloud] does on a blank or shown panel. *)
Lemma on_read_aloud_spec (selection : string) (s : Paged.ReaderPanel) :
  blank s \/ shown s ->
  PagedUi.on_read_aloud selection s
  = Ok (if is_empty (Paged.pages s) then (s, None)
        else
          let text := if truthy selection then selection else Paged.text_ctrl s in
          (Paged.set_tts_service (fst (Tts.speak text (Paged.tts_service s))) s,
           snd (Tts.speak text (Paged.tts_service s)))).
Proof.
  intros [Hb|Hs]; unfold PagedUi.on_read_aloud.
  - destruct Hb as (-> & _). reflexivity.
  - destruct (shown_is_page_display_like s Hs) as (Hne & Hr).
    destruct Hs as (_ & Ht).
    destruct (Paged.pages s) as [|p ps] eqn:Hp; [contradiction|].
    cbn [is_empty]. destruct (truthy selection).
    + cbn zeta. now destruct (Tts.speak selection (Paged.tts_service s)).
    + rewrite getitem_in_range by exact Hr. cbn [bind]. rewrite Ht.
      now destruct (Tts.speak _ (Paged.tts_service s)).
Qed.

Lemma paged_step_invariant (s : Paged.ReaderPanel) (ev : PagedUi.Event) :
  blank s \/ shown s -> blank (PagedUi.step s ev) \/ shown (PagedUi.step s ev).
Proof.
  intros Hinv. destruct ev as [os pathname| | |selection| |]; cbn [PagedUi.step].
  - right. apply load_file_shown.
  - destruct Hinv as [Hb|Hs]; [left|right; now apply on_next_page_shown].
    pose proof Hb as (Hp & Hi & _).
    rewrite on_next_page_last; [exact Hb|]. rewrite Hp, Hi. cbn. lia.
  - destruct Hinv as [Hb|Hs]; [left|right; now apply on_prev_page_shown].
    pose proof Hb as (Hp & Hi & _).
    rewrite on_prev_page_first; [exact Hb|]. rewrite Hi. lia.
  - rewrite (on_read_aloud_spec selection s Hinv).
    destruct (is_empty (Paged.pages s)); [exact Hinv|exact Hinv].
  - exact Hinv.
  - exact Hinv.
Qed.

Lemma paged_run_invariant (evs : list PagedUi.Event) (s : Paged.ReaderPanel) :
  blank s \/ shown s -> blank (PagedUi.run evs s) \/ shown (PagedUi.run evs s).
Proof.
  unfold PagedUi.run. revert s; induction evs as [|ev evs IH]; intros s Hinv.
  - exact Hinv.
  - cbn [fold_left]. apply IH. now apply paged_step_invariant.
Qed.

Lemma blank_init (tts : TTSService) : blank (Paged.ReaderPanel_init tts).
Proof. unfold blank. cbn. auto. Qed.

Lemma paged_step_pages (s : Paged.ReaderPanel) (ev : PagedUi.Event) :
  match ev with
  | PagedUi.Open _ _ => True
  | _ => Paged.pages (PagedUi.step s ev) = Paged.pages s
  end.
Proof.
  destruct ev as [os pathname| | |selection| |]; cbn [PagedUi.step];
    try exact I; try reflexivity.
  - unfold Paged.on_next_page. destruct (_ <? _); [|reflexivity].
    now rewrite update_display_pages.
  - unfold Paged.on_prev_page. destruct (_ <? _); [|reflexivity].
    now rewrite update_display_pages.
  - unfold PagedUi.on_read_aloud.
    destruct (is_empty (Paged.pages s)); [reflexivity|].
    destruct (truthy selection).
    + now destruct (Tts.speak selection (Paged.tts_service s)).
    + destruct (getitem (Paged.pages s) (Paged.current_page_idx s)) as [c|e];
        [|reflexivity].
      cbn [bind]. now destruct (Tts.speak c (Paged.tts_service s)).
Qed.

(** X3.  Over the whole life of the page view of variant 2 (any sequence
    of opened files, Next, Prev, Read Page, Stop and finishing workers,
    from the freshly built panel) the panel is either still blank (no
    pages, index 0, both buttons disabled) or it shows the page at its
    index, with the index in range and the buttons agreeing with it; and
    nothing but opening a file changes the pages. *)
Theorem page_view_always_consistent (tts : TTSService) (evs : list PagedUi.Event) :
  let s := PagedUi.run evs (Paged.ReaderPanel_init tts) in
  (blank s \/ shown s) /\
  forall ev,
    match ev with
    | PagedUi.Open _ _ => True
    | _ => Paged.pages (PagedUi.step s ev) = Paged.pages s
    end.
Proof.
  cbn zeta. split.
  - apply paged_run_invariant. left. apply blank_init.
  - intros ev. apply paged_step_pages.
Qed.

(** X4.  In every state the page view of variant 2 can reach,
    [on_read_aloud] returns normally (the page lookup never raises
    [IndexError]) and leaves pages, index and display alone.  It starts a
    worker exactly when there are pages and the coordinator has an engine,
    and then the worker is given the selection if there is one and
    otherwise exactly the text on display. *)
Theorem read_aloud_speaks_displayed_text (tts : TTSService)
    (evs : list PagedUi.Event) (selection : string) :
  let s := PagedUi.run evs (Paged.ReaderPanel_init tts) in
  exists s' th,
    PagedUi.on_read_aloud selection s = Ok (s', th) /\
    Paged.pages s' = Paged.pages s /\
    Paged.current_page_idx s' = Paged.current_page_idx s /\
    Paged.text_ctrl s' = Paged.text_ctrl s /\
    th = (if is_empty (Paged.pages s) then None
          else match engine (Paged.tts_service s) with
               | None => None
               | Some _ =>
                   Some (if truthy selection then selection else Paged.text_ctrl s)
               end) /\
    match th with
    | Some _ => is_speaking (Paged.tts_service s') = true
    | None => Paged.tts_service s' = Paged.tts_service s
    end.
Proof.
  cbn zeta. set (s := PagedUi.run evs (Paged.ReaderPanel_init tts)).
  assert (Hinv : blank s \/ shown s)
    by (apply paged_run_invariant; left; apply blank_init).
  rewrite (on_read_aloud_spec selection s Hinv).
  destruct (is_empty (Paged.pages s)).
  - exists s, None. repeat split.
  - cbn zeta. eexists _, _. split; [reflexivity|].
    unfold Tts.speak. destruct (engine (Paged.tts_service s)); cbn; repeat split.
Qed.

(** ** Loading a text file, end to end *)

Lemma range_len_page_count (n : Z) :
  0 <= n -> range_len 0 n 3000 = (n + 2999) / 3000.
Proof.
  intros Hn. unfold range_len. change (0 <? 3000) with true. cbv iota.
  destruct (Z.ltb_spec 0 n).
  - replace (n + 2999) with (n - 1 + 1 * 3000) by lia.
    rewrite Z.div_add by lia. rewrite Z.sub_0_r. lia.
  - replace n with 0 by lia. reflexivity.
Qed.

Lemma new_pages_of_txt (os : Platform) (pathname content : string) :
  lower (splitext_ext os pathname) = ".txt" ->
  open_read os pathname = Ok content ->
  Paged.new_pages_of os pathname
  = Ok (windows content 3000 (Z.to_nat ((len content + 2999) / 3000))).
Proof.
  intros Hext Hread. unfold Paged.new_pages_of. rewrite Hext.
  change ((".txt" =? ".txt")%string) with true. cbv iota.
  rewrite (read_txt_pages_chunk_text os pathname content Hread).
  rewrite chunk_text_windows by lia.
  now rewrite range_len_page_count by apply len_nonneg.
Qed.

Lemma page_count_positive (content : string) :
  content <> "" -> 0 < (len content + 2999) / 3000.
Proof.
  intros Hne. assert (0 < len content).
  { pose proof (len_nonneg content).
    destruct (Z.eq_dec (len content) 0) as [H0|]; [|lia].
    now apply len_empty in H0. }
  apply Z.div_str_pos. lia.
Qed.

(** X5.  Loading a readable text file in the page view of variant 2 loses
    nothing: for a non-empty file the pages joined in order are the file's
    content, there are ceil(len/3000) of them, and the view shows the first
    3000 characters; an empty file gives the single placeholder page. *)
Theorem paged_text_load_lossless (os : Platform) (pathname content : string)
    (self : Paged.ReaderPanel)
    (Hext : lower (splitext_ext os pathname) = ".txt")
    (Hread : open_read os pathname = Ok content) :
  let s := Paged._load_file os pathname self in
  match content with
  | EmptyString => Paged.pages s = [Paged.placeholder]
  | String _ _ =>
      join (Paged.pages s) = content /\
      Z.of_nat (List.length (Paged.pages s)) = (len content + 2999) / 3000 /\
      Paged.text_ctrl s = slice content 0 3000
  end.
Proof.
  cbn zeta. destruct (load_file_loaded os pathname self) as (_ & _ & Ht).
  rewrite Ht. clear Ht. rewrite load_file_pages.
  rewrite (new_pages_of_txt os pathname content Hext Hread).
  destruct content as [|ch content]; [reflexivity|].
  set (t := String ch content).
  assert (Hne : t <> "") by discriminate.
  pose proof (page_count_positive t Hne) as Hpos.
  destruct (windows_chunking t 3000 ltac:(lia)) as (Hjoin & Hnth & _).
  cbn zeta in Hjoin, Hnth.
  rewrite range_len_page_count in Hjoin, Hnth by apply len_nonneg.
  pose proof (windows_length t 3000 (Z.to_nat ((len t + 2999) / 3000))) as Hlen.
  destruct (windows t 3000 (Z.to_nat ((len t + 2999) / 3000))) as [|p ps] eqn:Hw.
  - cbn [List.length] in Hlen. lia.
  - cbn [installed_pages]. split; [exact Hjoin|]. split; [rewrite Hlen; lia|].
    specialize (Hnth 0%nat ltac:(cbn; lia)). exact Hnth.
Qed.

Lemma paged_text_load_lossless_witness :
  join (Paged.pages (Paged._load_file hello_txt "hello.txt"
                       (Paged.ReaderPanel_init tts0))) = "hello" /\
  Z.of_nat (List.length (Paged.pages (Paged._load_file hello_txt "hello.txt"
                                        (Paged.ReaderPanel_init tts0))))
  = (len "hello" + 2999) / 3000 /\
  Paged.text_ctrl (Paged._load_file hello_txt "hello.txt"
                     (Paged.ReaderPanel_init tts0)) = slice "hello" 0 3000.
Proof.
  apply (paged_text_load_lossless hello_txt "hello.txt" "hello"
           (Paged.ReaderPanel_init tts0)); reflexivity.
Defined.

(** ** PDF and EPUB extraction with failures *)

Lemma pdf_loop_outcome (reader_pages : list (result string)) (acc : list string) :
  Paged.pdf_loop reader_pages acc =
  match first_error reader_pages with
  | Some e => Raise e
  | None => Ok (acc ++ filter has_text (returned reader_pages))%list
  end.
Proof.
  revert acc; induction reader_pages as [|[txt|e] rest IH]; intros acc.
  - cbn. now rewrite app_nil_r.
  - cbn [Paged.pdf_loop bind first_error returned filter]. rewrite IH.
    destruct (first_error rest); [reflexivity|].
    unfold has_text. destruct (truthy (strip txt));
      [now rewrite <- app_assoc|reflexivity].
  - reflexivity.
Qed.

(** [_read_pdf_pages] of variant 2, case by case. *)
Lemma read_pdf_pages_cases (os : Platform) (path : string) :
  Paged._read_pdf_pages os path =
  match PdfReader os with
  | None => ["Library missing: pypdf"]
  | Some reader =>
      match reader path with
      | Raise e => ["Error reading PDF: " ++ e]
      | Ok reader_pages =>
          match first_error reader_pages with
          | Some e => ["Error reading PDF: " ++ e]
          | None =>
              match filter has_text (returned reader_pages) with
              | [] => ["No text found in PDF."]
              | kept => kept
              end
          end
      end
  end /\
  Paged._read_pdf_pages os path <> [].
Proof.
  unfold Paged._read_pdf_pages.
  destruct (PdfReader os) as [reader|]; [|split; [reflexivity|discriminate]].
  destruct (reader path) as [reader_pages|e]; [|split; [reflexivity|discriminate]].
  cbn [bind]. rewrite pdf_loop_outcome.
  destruct (first_error reader_pages); [split; [reflexivity|discriminate]|].
  cbn [bind app try_except].
  destruct (filter has_text (returned reader_pages));
    split; try reflexivity; discriminate.
Qed.

(** X6.  [_read_pdf_pages] of variant 2 on every input: without pypdf, or
    when opening the file or extracting any single page raises, the result
    is one diagnostic page (the text of the pages extracted before the
    failure is discarded); otherwise it is the texts of the pages that
    contain something besides white space, in page order, or the
    "No text found" page when there is none.  It never returns an empty
    list.  White space is what [str.strip()] removes: a page holding only
    U+00A0, U+0085 and a space counts as having no text. *)
Theorem read_pdf_pages_total (os : Platform) (path : string) :
  Paged._read_pdf_pages os path =
  match PdfReader os with
  | None => ["Library missing: pypdf"]
  | Some reader =>
      match reader path with
      | Raise e => ["Error reading PDF: " ++ e]
      | Ok reader_pages =>
          match first_error reader_pages with
          | Some e => ["Error reading PDF: " ++ e]
          | None =>
              match filter has_text (returned reader_pages) with
              | [] => ["No text found in PDF."]
              | kept => kept
              end
          end
      end
  end /\
  Paged._read_pdf_pages os path <> [] /\
  Paged._read_pdf_pages pdf_nbsp_page "book.pdf" = ["No text found in PDF."].
Proof.
  destruct (read_pdf_pages_cases os path) as (Hcases & Hne).
  split; [exact Hcases|]. split; [exact Hne|reflexivity].
Qed.

Lemma document_texts_filter (items : list EpubItem) :
  document_texts (filter is_document items) = document_texts items.
Proof.
  induction items as [|item rest IH]; [reflexivity|].
  cbn [filter document_texts]. unfold is_document at 1.
  destruct (get_type item =? ITEM_DOCUMENT) eqn:Hdoc; [|exact IH].
  cbn [document_texts]. rewrite Hdoc, IH. reflexivity.
Qed.

Lemma join_flat_map_sections (texts : list string) :
  join (flat_map section_pages texts)
  = join (filter (fun text => 100 <? len (strip text)) texts).
Proof.
  induction texts as [|text texts IH]; [reflexivity|].
  cbn [flat_map filter]. rewrite join_app, IH.
  destruct (section_pages_cases text) as (Hdrop & Hone & Hmany).
  destruct (Z.ltb_spec 100 (len (strip text))) as [Hkeep|Hshort].
  - destruct (Z.le_gt_cases (len text) 3000) as [Hle|Hgt].
    + rewrite (Hone Hkeep Hle). unfold join. cbn [fold_right].
      now rewrite append_empty_r.
    + destruct (Hmany Hkeep ltac:(lia)) as (_ & Hjoin & _).
      rewrite Hjoin. reflexivity.
  - rewrite (Hdrop Hshort). reflexivity.
Qed.

(** X7.  For an EPUB book that opens and whose document items all yield
    text, the pages of variant 2 are the optional title page followed by
    body pages whose concatenation is exactly the concatenation, in
    manifest order, of the sections with more than 100 characters after
    stripping: chunking loses and reorders nothing.  Items that are not
    documents contribute nothing and are never asked for their text.
    Stripping removes what [str.strip()] removes: a section of 50 letters
    followed by 60 no-break spaces is below the threshold and dropped. *)
Theorem read_epub_pages_lossless (os : Platform) (path : string)
    (read_epub : string -> result EpubBook) (book : EpubBook)
    (texts : list string)
    (Hlib : epub os = Some read_epub) (Hbook : read_epub path = Ok book)
    (Htexts : document_texts (get_items book) = Ok texts) :
  (exists body,
     Paged._read_epub_pages os path = (title_pages book ++ body)%list /\
     join body = join (filter (fun text => 100 <? len (strip text)) texts)) /\
  (forall acc,
     Paged.epub_loop (get_items book) acc
     = Paged.epub_loop (filter is_document (get_items book)) acc) /\
  Paged._read_epub_pages epub_padded_section "book.epub" = [].
Proof.
  split; [|split].
  - exists (flat_map section_pages texts).
    rewrite (read_epub_pages_spec os path read_epub book Hlib Hbook), Htexts.
    split; [reflexivity|apply join_flat_map_sections].
  - intros acc. now rewrite !epub_loop_spec, document_texts_filter.
  - vm_compute. reflexivity.
Qed.

Lemma read_epub_pages_lossless_witness :
  exists body,
    Paged._read_epub_pages epub_long_section "book.epub" = body /\
    join body = repeat_char "a" 3001.
Proof.
  destruct (proj1 (read_epub_pages_lossless epub_long_section "book.epub"
                     _ _ [repeat_char "a" 3001] eq_refl eq_refl eq_refl))
    as (body & Hpages & Hjoin).
  exists body. split; [exact Hpages|].
  rewrite Hjoin. vm_compute. reflexivity.
Defined.

(** ** The coordinator and its workers over any schedule *)

Lemma step_without_engine (ev : Tts.Event) (msg : string) :
  Tts.step ev (Tts.boot (Raise msg)) = Tts.boot (Raise msg).
Proof.
  destruct ev as [text| |i f]; cbn; try reflexivity.
  destruct i; reflexivity.
Qed.

(** X8.  When [pyttsx3.init()] failed in the constructor, the coordinator
    of variants 0 to 2 is inert: whatever is called and scheduled, no
    worker is ever started, nothing is played or printed, and the flag
    stays [False]. *)
Theorem coordinator_without_engine_is_inert (evs : list Tts.Event) (msg : string) :
  Tts.run evs (Tts.boot (Raise msg)) = Tts.boot (Raise msg).
Proof.
  unfold Tts.run. induction evs as [|ev evs IH]; [reflexivity|].
  cbn [fold_left]. rewrite step_without_engine. exact IH.
Qed.

Lemma speak_thread_audio (f : Tts.Fault) (text : string) (w : Tts.World) :
  Tts.audio (snd (Tts._speak_thread f text w))
  = (Tts.audio w ++ match f with Tts.NoFault => [text] | _ => [] end)%list /\
  Tts.started (snd (Tts._speak_thread f text w)) = Tts.started w.
Proof.
  destruct f as [|[msg|msg]|[msg|msg]|[msg|msg]]; cbn;
    rewrite ?app_nil_r; split; reflexivity.
Qed.

Lemma mark_finished_texts (ws : list (string * bool)) (i : nat) (text : string) :
  nth_error ws i = Some (text, false) ->
  In text (map fst (filter snd (Tts.mark_finished i ws))) /\
  incl (map fst (filter snd ws)) (map fst (filter snd (Tts.mark_finished i ws))) /\
  List.length (map fst (filter snd (Tts.mark_finished i ws)))
  = S (List.length (map fst (filter snd ws))) /\
  (forall u, In (u, false) (Tts.mark_finished i ws) -> In (u, false) ws).
Proof.
  revert i; induction ws as [|[t b] ws IH]; intros i Hnth.
  - destruct i; discriminate.
  - destruct i as [|i]; cbn in Hnth.
    + injection Hnth as -> ->. cbn. repeat split.
      * now left.
      * apply incl_tl, incl_refl.
      * intros u [Hu|Hu]; [discriminate|now right].
    + destruct (IH i Hnth) as (Hin & Hincl & Hlen & Hpending).
      cbn [Tts.mark_finished filter]. destruct b; cbn [snd map fst List.length].
      * repeat split.
        -- now right.
        -- intros u [<-|Hu]; [now left|right; now apply Hincl].
        -- now rewrite Hlen.
        -- intros u [Hu|Hu]; [discriminate|right; now apply Hpending].
      * repeat split; try assumption.
        intros u [Hu|Hu]; [now left|right; now apply Hpending].
Qed.

Lemma world_inv_step (ev : Tts.Event) (w : Tts.World) :
  world_inv w -> world_inv (Tts.step ev w).
Proof.
  intros (Hflag & Hincl & Hlen). destruct ev as [text| |i f]; cbn [Tts.step].
  - unfold Tts.speak. destruct (engine (Tts.self_ w)) eqn:He.
    + unfold world_inv, finished_texts. cbn [Tts.self_ Tts.audio Tts.started].
      rewrite filter_app. cbn [filter snd]. rewrite app_nil_r.
      split; [|split; assumption].
      right. exists text. apply in_or_app. right. now left.
    + unfold world_inv, finished_texts. cbn [Tts.self_ Tts.audio Tts.started].
      rewrite app_nil_r. split; [|split]; assumption.
  - unfold world_inv, finished_texts. cbn [Tts.self_ Tts.audio Tts.started].
    split; [|split; assumption].
    unfold Tts.stop. destruct (engine (Tts.self_ w)); [|exact Hflag].
    destruct (is_speaking (Tts.self_ w)) eqn:Hs; [now left|left; exact Hs].
  - destruct (nth_error (Tts.started w) i) as [[text [|]]|] eqn:Hnth;
      try (split; [|split]; assumption).
    destruct (speak_thread_audio f text w) as (Haudio & Hstarted).
    destruct (mark_finished_texts _ _ _ Hnth) as (Hin & Hmore & Hcount & _).
    unfold world_inv, finished_texts in *.
    cbn [Tts.self_ Tts.audio Tts.started].
    rewrite speak_thread_self, Haudio, Hstarted, Hcount. split; [now left|].
    split.
    + intros u Hu. apply in_app_or in Hu. destruct Hu as [Hu|Hu].
      * apply Hmore, Hincl, Hu.
      * destruct f; cbn in Hu; try contradiction.
        destruct Hu as [<-|[]]. exact Hin.
    + rewrite length_app. destruct f; cbn [List.length]; lia.
Qed.

(** X9.  At any point of any schedule of the coordinator of variants 0
    to 2: if [is_speaking] is set, some started worker has not finished;
    every utterance played is the text of a worker that has finished; and
    no more utterances were played than workers have finished (a worker
    plays at most once).  The converse of the first part fails: [stop]
    clears the flag while the worker is still to run. *)
Theorem speaking_flag_and_audio_invariant (evs : list Tts.Event) (r : result Engine) :
  let w := Tts.run evs (Tts.boot r) in
  (is_speaking (Tts.self_ w) = false \/
   exists text, In (text, false) (Tts.started w)) /\
  incl (Tts.audio w) (finished_texts w) /\
  (List.length (Tts.audio w) <= List.length (finished_texts w))%nat.
Proof.
  cbn zeta. change (world_inv (Tts.run evs (Tts.boot r))). unfold Tts.run.
  assert (Hgen : forall w, world_inv w ->
            world_inv (fold_left (fun w ev => Tts.step ev w) evs w)).
  { induction evs as [|ev evs IH]; intros w Hw; [exact Hw|].
    cbn [fold_left]. apply IH. now apply world_inv_step. }
  apply Hgen. unfold world_inv, finished_texts. cbn.
  split; [now left|]. split; [apply incl_refl|lia].
Qed.

(** The engine's stop count plus one if the flag is set. *)
Lemma stop_budget_step (ev : Tts.Event) (w : Tts.World) (e1 : Engine) :
  engine (Tts.self_ w) = Some e1 ->
  exists e2,
    engine (Tts.self_ (Tts.step ev w)) = Some e2 /\
    (stop_calls e2 + (if is_speaking (Tts.self_ (Tts.step ev w)) then 1 else 0)
     <= stop_calls e1 + (if is_speaking (Tts.self_ w) then 1 else 0)
        + match ev with Tts.CallSpeak _ => 1 | _ => 0 end)%nat.
Proof.
  intros He. destruct ev as [text| |i f]; cbn [Tts.step].
  - unfold Tts.speak, Tts.stop. rewrite He.
    destruct (is_speaking (Tts.self_ w)) eqn:Hs; cbn.
    + eexists. split; [reflexivity|]. cbn. lia.
    + rewrite He. eexists. split; [reflexivity|]. lia.
  - unfold Tts.stop. rewrite He. cbn [Tts.self_].
    destruct (is_speaking (Tts.self_ w)) eqn:Hs; cbn.
    + eexists. split; [reflexivity|]. cbn. lia.
    + rewrite He, Hs. eexists. split; [reflexivity|]. lia.
  - destruct (nth_error (Tts.started w) i) as [[text [|]]|].
    + exists e1. split; [exact He|]. lia.
    + cbn [Tts.self_]. rewrite speak_thread_self. cbn. rewrite He.
      exists e1. split; [reflexivity|].
      destruct (is_speaking (Tts.self_ w)); lia.
    + exists e1. split; [exact He|]. lia.
Qed.

Lemma stop_calls_monotone (evs : list Tts.Event) :
  forall w e1 e2,
    engine (Tts.self_ w) = Some e1 ->
    engine (Tts.self_ (fold_left (fun w ev => Tts.step ev w) evs w)) = Some e2 ->
    (stop_calls e1 <= stop_calls e2)%nat.
Proof.
  induction evs as [|ev evs IH]; intros w e1 e2 H1 H2.
  - cbn in H2. rewrite H1 in H2. injection H2 as <-. lia.
  - cbn [fold_left] in H2.
    assert (exists em, engine (Tts.self_ (Tts.step ev w)) = Some em /\
                       (stop_calls e1 <= stop_calls em)%nat) as (em & Hem & Hle).
    { destruct ev as [text| |i f]; cbn [Tts.step].
      - unfold Tts.speak, Tts.stop. rewrite H1.
        destruct (is_speaking (Tts.self_ w)); cbn; rewrite ?H1;
          eexists; (split; [reflexivity|]); cbn; lia.
      - unfold Tts.stop. rewrite H1.
        destruct (is_speaking (Tts.self_ w)); cbn; rewrite ?H1;
          eexists; (split; [reflexivity|]); cbn; lia.
      - destruct (nth_error (Tts.started w) i) as [[text [|]]|];
          try (exists e1; split; [exact H1|lia]).
        cbn [Tts.self_]. rewrite speak_thread_self. cbn. rewrite H1.
        exists e1. split; [reflexivity|lia]. }
    specialize (IH _ em e2 Hem H2). lia.
Qed.

(** X10.  With an engine present, over any schedule, [engine.stop()] has
    been called on the coordinator's engine at most once per [speak] call
    made so far; in particular [stop()] on an idle coordinator never
    touches the engine, and the engine is never replaced or lost. *)
Theorem engine_stops_bounded_by_speak_calls (evs : list Tts.Event) (e : Engine) :
  exists e',
    engine (Tts.self_ (Tts.run evs (Tts.boot (Ok e)))) = Some e' /\
    (stop_calls e <= stop_calls e')%nat /\
    (stop_calls e'
     + (if is_speaking (Tts.self_ (Tts.run evs (Tts.boot (Ok e)))) then 1 else 0)
     <= stop_calls e + speak_calls evs)%nat.
Proof.
  unfold Tts.run.
  assert (Hgen : forall w e1, engine (Tts.self_ w) = Some e1 ->
            exists e2,
              engine (Tts.self_ (fold_left (fun w ev => Tts.step ev w) evs w))
              = Some e2 /\
              (stop_calls e2
               + (if is_speaking
                       (Tts.self_ (fold_left (fun w ev => Tts.step ev w) evs w))
                  then 1 else 0)
               <= stop_calls e1 + (if is_speaking (Tts.self_ w) then 1 else 0)
                  + speak_calls evs)%nat).
  { induction evs as [|ev evs IH]; intros w e1 He.
    - exists e1. split; [exact He|]. cbn. lia.
    - cbn [fold_left].
      destruct (stop_budget_step ev w e1 He) as (e2 & He2 & Hle).
      destruct (IH _ e2 He2) as (e3 & He3 & Hle3).
      exists e3. split; [exact He3|].
      assert (speak_calls (ev :: evs)
              = (match ev with Tts.CallSpeak _ => 1 | _ => 0 end + speak_calls evs)%nat)
        by (unfold speak_calls; destruct ev; reflexivity).
      lia. }
  destruct (Hgen (Tts.boot (Ok e)) e eq_refl) as (e' & He' & Hle).
  exists e'. split; [exact He'|]. split; [|cbn in Hle; lia].
  exact (stop_calls_monotone evs (Tts.boot (Ok e)) e e' eq_refl He').
Qed.

(** ** Variant 3: worker, page view over its lifetime, text files *)

(** X11.  The worker of variant 3 swallows everything: whatever its
    engine does, including raising an object that is not an [Exception],
    [_speak_thread] returns normally, prints nothing, has reset
    [is_speaking] to [False], and has played the text exactly when no call
    raised. *)
Theorem ice_speak_thread_never_raises (f : Tts.Fault) (text : string) (w : Tts.World) :
  let (r, w') := IceUi._speak_thread f text w in
  r = inl tt /\
  is_speaking (Tts.self_ w') = false /\
  engine (Tts.self_ w') = engine (Tts.self_ w) /\
  Tts.stdout w' = Tts.stdout w /\
  Tts.started w' = Tts.started w /\
  Tts.audio w'
  = (Tts.audio w ++ match f with Tts.NoFault => [text] | _ => [] end)%list.
Proof.
  destruct f as [|[msg|msg]|[msg|msg]|[msg|msg]]; cbn;
    rewrite ?app_nil_r; repeat split.
Qed.

Lemma ice_update_display_valid (s : Ice.ReaderPanel) :
  0 <= Ice.current_page_idx s < Z.of_nat (List.length (Ice.pages s)) ->
  Ice.slider_max s = Z.of_nat (List.length (Ice.pages s)) - 1 ->
  ice_valid (Ice.update_display s) /\
  Ice.pages (Ice.update_display s) = Ice.pages s /\
  Ice.current_page_idx (Ice.update_display s) = Ice.current_page_idx s.
Proof.
  intros Hr Hmax. unfold Ice.update_display.
  destruct (Ice.pages s) as [|p ps] eqn:Hp; [cbn in Hr; lia|].
  cbn [is_empty]. unfold ice_valid. cbn. rewrite ?Hp.
  split; [|split; reflexivity].
  split; [discriminate|]. intros _. cbn in Hr, Hmax. repeat split; lia.
Qed.

Lemma ice_valid_range (s : Ice.ReaderPanel) :
  ice_valid s -> Ice.pages s <> [] ->
  0 <= Ice.current_page_idx s < Z.of_nat (List.length (Ice.pages s)) /\
  Ice.slider_max s = Z.of_nat (List.length (Ice.pages s)) - 1.
Proof.
  intros (_ & Hv) Hne. destruct (Hv Hne) as (Hr & _ & _ & Hmax & _). auto.
Qed.

Lemma ice_pages_nonempty (s : Ice.ReaderPanel) :
  0 < Z.of_nat (List.length (Ice.pages s)) -> Ice.pages s <> [].
Proof. destruct (Ice.pages s); [cbn; lia|discriminate]. Qed.

Lemma ice_load_book_valid (os : Platform) (path : string) (new_pages : list string)
    (self : Ice.ReaderPanel) :
  ice_valid (Ice.load_book os path new_pages self) /\
  Ice.pages (Ice.load_book os path new_pages self) = new_pages.
Proof.
  unfold Ice.load_book. destruct new_pages as [|p ps].
  - cbn. split; [|reflexivity]. unfold ice_valid. cbn. split; [reflexivity|].
    intros H. contradiction.
  - match goal with
    | |- context [Ice.update_display ?s0] =>
        destruct (ice_update_display_valid s0) as (Hv & Hp & _)
    end.
    + cbn [Ice.current_page_idx Ice.pages List.length]. lia.
    + reflexivity.
    + split; [exact Hv|exact Hp].
Qed.

Lemma ice_valid_same_view (s s' : Ice.ReaderPanel) :
  Ice.pages s' = Ice.pages s ->
  Ice.current_page_idx s' = Ice.current_page_idx s ->
  Ice.text_ctrl s' = Ice.text_ctrl s ->
  Ice.slider_value s' = Ice.slider_value s ->
  Ice.slider_max s' = Ice.slider_max s ->
  Ice.prev_btn s' = Ice.prev_btn s ->
  Ice.next_btn s' = Ice.next_btn s ->
  ice_valid s -> ice_valid s'.
Proof.
  unfold ice_valid. intros -> -> -> -> -> -> -> H. exact H.
Qed.

Lemma ice_step_valid (s : Ice.ReaderPanel) (ev : IceUi.Event) :
  ice_valid s -> ice_valid (IceUi.step s ev).
Proof.
  intros Hv. destruct ev as [os path| | |val| | |]; cbn [IceUi.step].
  - apply ice_load_book_valid.
  - unfold Ice.on_next.
    destruct (Z.ltb_spec (Ice.current_page_idx s)
                (Z.of_nat (List.length (Ice.pages s)) - 1)) as [Hlt|]; [|exact Hv].
    assert (Hne : Ice.pages s <> []).
    { intros Hnil. rewrite Hnil in Hlt. cbn in Hlt.
      destruct Hv as (H0 & _). specialize (H0 Hnil). lia. }
    destruct (ice_valid_range s Hv Hne) as (Hr & Hmax).
    apply ice_update_display_valid; cbn; [lia|exact Hmax].
  - unfold Ice.on_prev.
    destruct (Z.ltb_spec 0 (Ice.current_page_idx s)) as [Hlt|]; [|exact Hv].
    assert (Hne : Ice.pages s <> []).
    { intros Hnil. destruct Hv as (H0 & _). specialize (H0 Hnil). lia. }
    destruct (ice_valid_range s Hv Hne) as (Hr & Hmax).
    apply ice_update_display_valid; cbn; [lia|exact Hmax].
  - unfold IceUi.on_slider_change.
    destruct (Z.leb_spec 0 val); [|exact Hv].
    destruct (Z.ltb_spec val (Z.of_nat (List.length (Ice.pages s)))); [|exact Hv].
    cbn [andb].
    destruct (ice_valid_range s Hv ltac:(apply ice_pages_nonempty; lia)) as (Hr & Hmax).
    apply ice_update_display_valid; cbn; [lia|exact Hmax].
  - unfold Ice.on_read_click. destruct (is_empty (Ice.pages s)); [exact Hv|].
    cbn. now apply (ice_valid_same_view s).
  - now apply (ice_valid_same_view s).
  - now apply (ice_valid_same_view s).
Qed.

Lemma ice_run_valid (evs : list IceUi.Event) (s : Ice.ReaderPanel) :
  ice_valid s -> ice_valid (IceUi.run evs s).
Proof.
  unfold IceUi.run. revert s; induction evs as [|ev evs IH]; intros s Hv.
  - exact Hv.
  - cbn [fold_left]. apply IH. now apply ice_step_valid.
Qed.

Lemma ice_init_valid (tts : TTSService) : ice_valid (Ice.ReaderPanel_init tts).
Proof. unfold ice_valid. cbn. split; [reflexivity|]. intros H. contradiction. Qed.

(** X12.  Over the whole life of the page view of variant 3 (books opened,
    Next, Prev, slider moves, Listen, Back and finishing workers, from the
    freshly built panel): whenever there are pages the index designates
    one of them, so [self.pages[self.current_page_idx]] never raises, the
    text, the slider and the buttons agree with the index, and the slider
    value lies within the slider range; with no pages the index is 0.  A
    slider value outside [0, len(pages)) is ignored, not clamped. *)
Theorem ice_page_view_always_valid (tts : TTSService) (evs : list IceUi.Event) :
  let s := IceUi.run evs (Ice.ReaderPanel_init tts) in
  ice_valid s /\
  match Ice.pages s with
  | [] => True
  | _ :: _ =>
      getitem (Ice.pages s) (Ice.current_page_idx s) = Ok (Ice.text_ctrl s) /\
      0 <= Ice.slider_value s <= Ice.slider_max s
  end /\
  forall val,
    Ice.pages (IceUi.on_slider_change val s) = Ice.pages s /\
    Ice.current_page_idx (IceUi.on_slider_change val s)
    = if (0 <=? val) && (val <? Z.of_nat (List.length (Ice.pages s)))
      then val else Ice.current_page_idx s.
Proof.
  cbn zeta. set (s := IceUi.run evs (Ice.ReaderPanel_init tts)).
  assert (Hv : ice_valid s) by (apply ice_run_valid, ice_init_valid).
  split; [exact Hv|]. split.
  - destruct (Ice.pages s) as [|p ps] eqn:Hp; [exact I|].
    assert (Hne : Ice.pages s <> []) by (rewrite Hp; discriminate).
    destruct Hv as (_ & Hv). destruct (Hv Hne) as (Hr & Ht & Hsv & Hsm & _).
    rewrite <- Hp. rewrite getitem_in_range by exact Hr.
    rewrite Ht, Hsv, Hsm. split; [reflexivity|lia].
  - intros val. unfold IceUi.on_slider_change.
    destruct ((0 <=? val) && (val <? Z.of_nat (List.length (Ice.pages s)))) eqn:Hin;
      [|split; reflexivity].
    apply andb_true_iff in Hin. destruct Hin as (H0 & H1).
    apply Z.leb_le in H0. apply Z.ltb_lt in H1.
    destruct (ice_valid_range s Hv ltac:(apply ice_pages_nonempty; lia)) as (_ & Hmax).
    destruct (ice_update_display_valid (Ice.set_current_page_idx val s))
      as (_ & Hp & Hi); cbn; [lia|exact Hmax|].
    split; [exact Hp|exact Hi].
Qed.

Lemma ice_extract_text_txt (os : Platform) (path : string) :
  lower (splitext_ext os path) = ".txt" ->
  Ice.extract_text os path =
  match open_read os path with
  | Ok content => windows content 3000 (Z.to_nat ((len content + 2999) / 3000))
  | Raise e => ["Error: " ++ e]
  end.
Proof.
  intros Hext. unfold Ice.extract_text. rewrite Hext.
  change ((".txt" =? ".txt")%string) with true. cbv iota.
  destruct (open_read os path) as [content|e]; [|reflexivity].
  cbn [bind]. rewrite chunk_text_windows by lia.
  now rewrite range_len_page_count by apply len_nonneg.
Qed.

(** X13.  Opening a text file in variant 3: a readable file is cut
    without loss into ceil(len/3000) pages and the first one is shown; an
    empty file gives no page at all, and then text, page label and buttons
    are left as they were (the previous book stays on display); a file that
    cannot be read gives the single page "Error: ..." with the message. *)
Theorem ice_text_open (os : Platform) (path : string) (self : Ice.ReaderPanel)
    (Hext : lower (splitext_ext os path) = ".txt") :
  let s := Ice.open_book os path self in
  match open_read os path with
  | Ok content =>
      join (Ice.pages s) = content /\
      Z.of_nat (List.length (Ice.pages s)) = (len content + 2999) / 3000 /\
      match content with
      | EmptyString =>
          Ice.pages s = [] /\ Ice.text_ctrl s = Ice.text_ctrl self /\
          Ice.page_lbl s = Ice.page_lbl self /\
          Ice.prev_btn s = Ice.prev_btn self /\
          Ice.next_btn s = Ice.next_btn self
      | String _ _ => Ice.text_ctrl s = slice content 0 3000
      end
  | Raise e => Ice.pages s = ["Error: " ++ e]
  end.
Proof.
  cbn zeta. unfold Ice.open_book.
  rewrite (ice_extract_text_txt os path Hext).
  destruct (open_read os path) as [content|e];
    [|apply ice_load_book_valid].
  destruct content as [|ch content].
  - cbn. repeat split.
  - set (t := String ch content).
    assert (Hne : t <> "") by discriminate.
    pose proof (page_count_positive t Hne) as Hpos.
    destruct (windows_chunking t 3000 ltac:(lia)) as (Hjoin & Hnth & _).
    cbn zeta in Hjoin, Hnth.
    rewrite range_len_page_count in Hjoin, Hnth by apply len_nonneg.
    pose proof (windows_length t 3000 (Z.to_nat ((len t + 2999) / 3000))) as Hlen.
    destruct (ice_load_book_valid os path
                (windows t 3000 (Z.to_nat ((len t + 2999) / 3000))) self)
      as ((_ & Hv) & Hp).
    rewrite Hp in *.
    split; [exact Hjoin|]. split; [rewrite Hlen; lia|].
    assert (Hw : windows t 3000 (Z.to_nat ((len t + 2999) / 3000)) <> []).
    { intros Hnil. rewrite Hnil in Hlen. cbn [List.length] in Hlen. lia. }
    destruct (Hv Hw) as (_ & Ht & _).
    rewrite Ht.
    replace (Ice.current_page_idx _) with 0.
    + apply (Hnth 0%nat). lia.
    + unfold Ice.load_book, Ice.update_display.
      destruct (windows t 3000 _); reflexivity.
Qed.

Lemma ice_text_open_witness :
  join (Ice.pages (Ice.open_book hello_txt "hello.txt" (Ice.ReaderPanel_init tts0)))
  = "hello" /\
  Z.of_nat (List.length (Ice.pages (Ice.open_book hello_txt "hello.txt"
                                      (Ice.ReaderPanel_init tts0))))
  = (len "hello" + 2999) / 3000 /\
  Ice.text_ctrl (Ice.open_book hello_txt "hello.txt" (Ice.ReaderPanel_init tts0))
  = slice "hello" 0 3000.
Proof.
  apply (ice_text_open hello_txt "hello.txt" (Ice.ReaderPanel_init tts0)).
  reflexivity.
Defined.

(** ** The text view: search and read-aloud (variants 0 and 1) *)

(** The two possible outcomes of a search with a non-empty term. *)
Lemma search_spec (h term : string) (k : Z) :
  0 <= k -> term <> "" ->
  (exists r,
     Scroll.search h term k = Scroll.FoundAt r /\
     Scroll.occurs_at h term r /\
     ((k < r /\ forall i, k < i < r -> ~ Scroll.occurs_at h term i) \/
      ((forall i, k < i -> ~ Scroll.occurs_at h term i) /\
       (forall i, i < r -> ~ Scroll.occurs_at h term i)))) \/
  (Scroll.search h term k = Scroll.NotFound /\
   forall i, ~ Scroll.occurs_at h term i).
Proof.
  intros Hk Hne. rewrite (search_unfold h term k Hne). cbn zeta.
  unfold Scroll.occurs_at.
  pose proof (lower_nonempty term Hne) as Hne'.
  destruct (find_spec (lower h) (lower term) (k + 1) Hne' ltac:(lia))
    as [(H1 & Hnone1) | (Hge1 & Hocc1 & Hfirst1)].
  - rewrite H1, Z.eqb_refl.
    destruct (find_spec (lower h) (lower term) 0 Hne' ltac:(lia))
      as [(H0 & Hnone0) | (Hge0 & Hocc0 & Hfirst0)].
    + right. rewrite H0, Z.eqb_refl. split; [reflexivity|].
      intros i (Hi & Hocc). exact (Hnone0 i Hi Hocc).
    + left. destruct (Z.eqb_spec (find (lower h) (lower term) 0) (-1)); [lia|].
      eexists. split; [reflexivity|]. split; [split; assumption|]. right. split.
      * intros i Hi (_ & Hocc). apply (Hnone1 i); [lia|exact Hocc].
      * intros i Hi (Hi0 & Hocc). apply (Hfirst0 i); [lia|exact Hocc].
  - left.
    destruct (Z.eqb_spec (find (lower h) (lower term) (k + 1)) (-1)); [lia|].
    destruct (Z.eqb_spec (find (lower h) (lower term) (k + 1)) (-1)); [lia|].
    eexists. split; [reflexivity|]. split; [split; [lia|assumption]|].
    left. split; [lia|].
    intros i Hi (_ & Hocc). apply (Hfirst1 i); [lia|exact Hocc].
Qed.

Lemma on_search_found (self : Scroll.ReaderPanel) (r : Z) :
  Scroll.outcome (Scroll.on_search self) = Scroll.FoundAt r ->
  Scroll.search_box self <> "" /\
  Scroll.on_search self
  = [Scroll.SetInsertionPoint r;
     Scroll.SetSelection r (r + len (lower (Scroll.search_box self)));
     Scroll.SetFocus].
Proof.
  unfold Scroll.on_search. destruct (Scroll.search_box self) as [|ch q] eqn:Hq.
  - cbn. discriminate.
  - cbn [truthy negb]. cbn zeta.
    destruct (negb (_ =? -1)).
    + cbn [Scroll.outcome]. intros [= <-]. split; [discriminate|reflexivity].
    + cbn. discriminate.
Qed.

(** X14.  When a search succeeds at offset [r], the handler moves the
    caret to [r] and selects from [r] exactly as many characters as the
    lower-cased term has; the selected range lies inside the lower-cased
    text and covers there exactly the lower-cased term.  Searching again
    with the caret at [r] succeeds too, and gives [r] again only when the
    term occurs nowhere else.  Case is ignored: "WORLD" is found in
    "Hello World" at offset 6. *)
Theorem search_selects_match_and_advances (self : Scroll.ReaderPanel) (r : Z)
    (Hk : 0 <= Scroll.insertion_point (Scroll.text_ctrl self))
    (Hr : Scroll.outcome (Scroll.on_search self) = Scroll.FoundAt r) :
  let h := Scroll.value (Scroll.text_ctrl self) in
  let term := Scroll.search_box self in
  Scroll.on_search self
  = [Scroll.SetInsertionPoint r; Scroll.SetSelection r (r + len (lower term));
     Scroll.SetFocus] /\
  0 <= r /\ r + len (lower term) <= len (lower h) /\
  slice (lower h) r (r + len (lower term)) = lower term /\
  Scroll.value (Scroll.text_ctrl (Scroll.after_search self)) = h /\
  Scroll.selection (Scroll.text_ctrl (Scroll.after_search self))
  = (r, r + len (lower term)) /\
  (exists r',
     Scroll.search h term r = Scroll.FoundAt r' /\
     (r' = r -> forall i, Scroll.occurs_at h term i -> i = r)) /\
  Scroll.on_search
    {| Scroll.text_ctrl := {| Scroll.value := "Hello World";
                              Scroll.insertion_point := 0;
                              Scroll.selection := (0, 0);
                              Scroll.focused := false |};
       Scroll.search_box := "WORLD" |}
  = [Scroll.SetInsertionPoint 6; Scroll.SetSelection 6 11; Scroll.SetFocus].
Proof.
  cbn zeta. destruct (on_search_found self r Hr) as (Hne & Hcalls).
  set (h := Scroll.value (Scroll.text_ctrl self)).
  set (term := Scroll.search_box self) in *.
  set (k := Scroll.insertion_point (Scroll.text_ctrl self)) in *.
  assert (Hsearch : Scroll.search h term k = Scroll.FoundAt r) by exact Hr.
  assert (Hocc : Scroll.occurs_at h term r).
  { destruct (search_spec h term k Hk Hne) as [(r0 & Hs & Ho & _)|(Hs & _)];
      rewrite Hs in Hsearch; [|discriminate].
    injection Hsearch as <-. exact Ho. }
  pose proof Hocc as (Hr0 & Hsub).
  assert (Hinside : r + len (lower term) <= len (lower h)).
  { pose proof Hsub as Hin.
    apply occurrence_inside in Hin; [|now apply lower_nonempty].
    unfold len. lia. }
  split; [exact Hcalls|]. split; [exact Hr0|]. split; [exact Hinside|].
  split.
  { rewrite slice_window.
    - unfold len. rewrite Nat2Z.id. exact Hsub.
    - pose proof (len_nonneg (lower term)). lia.
    - apply len_nonneg. }
  split; [unfold Scroll.after_search; rewrite Hcalls; reflexivity|].
  split; [unfold Scroll.after_search; rewrite Hcalls; reflexivity|].
  split; [|reflexivity].
  destruct (search_spec h term r Hr0 Hne) as [(r' & Hs & Ho & Hwhere)|(_ & Hnone)].
  - exists r'. split; [exact Hs|]. intros -> i Hi.
    destruct Hwhere as [(Hlt & _)|(Hafter & Hbefore)]; [lia|].
    destruct (Z.lt_trichotomy i r) as [Hlt|[Heq|Hgt]]; [|exact Heq|].
    + exfalso. exact (Hbefore i Hlt Hi).
    + exfalso. exact (Hafter i Hgt Hi).
  - exfalso. exact (Hnone r Hocc).
Qed.

Lemma search_selects_match_and_advances_witness :
  exists r',
    Scroll.search "abcabc" "bc" 4 = Scroll.FoundAt r' /\
    (r' = 4 -> forall i, Scroll.occurs_at "abcabc" "bc" i -> i = 4).
Proof.
  refine (proj1 (proj2 (proj2 (proj2 (proj2 (proj2 (proj2
    (search_selects_match_and_advances
       {| Scroll.text_ctrl := {| Scroll.value := "abcabc";
                                 Scroll.insertion_point := 3;
                                 Scroll.selection := (3, 3);
                                 Scroll.focused := false |};
          Scroll.search_box := "bc" |} 4 _ _)))))))).
  - cbn. lia.
  - reflexivity.
Defined.

Lemma substring_beyond (s : string) (a b : nat) :
  (String.length s <= a)%nat -> substring a b s = "".
Proof.
  intros Ha. pose proof (substring_length s a b) as Hl.
  destruct (substring a b s); [reflexivity|cbn in Hl; lia].
Qed.

Lemma substring_zero (s : string) (a : nat) : substring a 0 s = "".
Proof.
  pose proof (substring_length s a 0) as Hl.
  destruct (substring a 0 s); [reflexivity|cbn in Hl; lia].
Qed.

Lemma substring_split (s : string) (a b1 b2 : nat) :
  substring a (b1 + b2) s = substring a b1 s ++ substring (a + b1) b2 s.
Proof.
  revert a; induction s as [|ch s IH]; intros a.
  - now rewrite !substring_nil.
  - destruct a as [|a].
    + cbn [Nat.add]. symmetry. apply substring_adjacent.
    + cbn [Nat.add substring]. apply IH.
Qed.

(** A slice that starts at a non-negative offset is a [substring]. *)
Lemma slice_from (s : string) (i c : Z) :
  0 <= i -> 0 <= c ->
  slice s i (i + c) = substring (Z.to_nat i) (Z.to_nat c) s.
Proof.
  intros Hi Hc. destruct (Z.le_gt_cases i (len s)) as [Hle|Hgt].
  - apply slice_window; lia.
  - rewrite substring_beyond by (unfold len in Hgt; lia).
    unfold slice, adjust.
    destruct (Z.ltb_spec i 0); [lia|].
    destruct (Z.ltb_spec (i + c) 0); [lia|].
    replace (Z.min (i + c) (len s) - Z.min i (len s)) with 0 by lia.
    apply substring_zero.
Qed.

(** The length of any slice [s[i : i + c]] is at most [c]. *)
Lemma slice_length_bound (s : string) (i c : Z) :
  0 <= c -> len (slice s i (i + c)) <= c.
Proof.
  intros Hc. unfold slice, len. rewrite substring_length. unfold adjust.
  fold (len s). pose proof (len_nonneg s).
  destruct (Z.ltb_spec i 0); destruct (Z.ltb_spec (i + c) 0); lia.
Qed.

(** X15.  Read Aloud in the text view with no selection: variant 1 hands
    the coordinator at most 5000 characters, whatever the caret position;
    with the caret at a non-negative offset, variant 0 speaks everything
    from the caret to the end of the text (the text before the caret
    followed by the spoken text is the whole text), and variant 1 speaks a
    prefix of that, all of it when fewer than 5000 characters remain.  A
    non-empty selection is spoken as it is by both. *)
Theorem read_aloud_from_caret (self : Scroll.ReaderPanel)
    (Hpos : 0 <= Scroll.insertion_point (Scroll.text_ctrl self)) :
  let h := Scroll.value (Scroll.text_ctrl self) in
  let pos := Scroll.insertion_point (Scroll.text_ctrl self) in
  let spoken0 := ScrollUi.on_read_aloud_0 "" self in
  let spoken1 := ScrollUi.on_read_aloud "" self in
  len spoken1 <= 5000 /\
  slice h 0 pos ++ spoken0 = h /\
  (exists rest, spoken0 = spoken1 ++ rest /\ (len h - pos <= 5000 -> rest = "")) /\
  forall ch sel,
    ScrollUi.on_read_aloud_0 (String ch sel) self = String ch sel /\
    ScrollUi.on_read_aloud (String ch sel) self = String ch sel.
Proof.
  cbn zeta. unfold ScrollUi.on_read_aloud_0, ScrollUi.on_read_aloud.
  cbn [truthy].
  set (h := Scroll.value (Scroll.text_ctrl self)).
  set (pos := Scroll.insertion_point (Scroll.text_ctrl self)) in *.
  pose proof (len_nonneg h) as Hn.
  split; [apply slice_length_bound; lia|].
  assert (H0 : slice h 0 pos = substring 0 (Z.to_nat pos) h).
  { replace pos with (0 + pos) at 1 by lia. now rewrite slice_from by lia. }
  destruct (Z.le_gt_cases pos (len h)) as [Hle|Hgt].
  - assert (Hall : slice h pos (len h)
                   = substring (Z.to_nat pos) (Z.to_nat (len h - pos)) h).
    { replace (len h) with (pos + (len h - pos)) at 1 by lia.
      apply slice_from; lia. }
    rewrite Hall, H0, slice_from by lia.
    split; [|split].
    + rewrite substring_adjacent. apply substring_whole. unfold len in *. lia.
    + destruct (Z.le_gt_cases (len h - pos) 5000) as [Hshort|Hlong].
      * exists "". rewrite append_empty_r. split; [|reflexivity].
        rewrite <- (substring_clip h (Z.to_nat pos) (Z.to_nat 5000)).
        f_equal. unfold len in *. lia.
      * exists (substring (Z.to_nat pos + Z.to_nat 5000)
                  (Z.to_nat (len h - pos - 5000)) h).
        split; [|lia].
        rewrite <- substring_split. f_equal. lia.
    + intros ch sel. split; reflexivity.
  - assert (Hnone : slice h pos (len h) = "").
    { unfold slice, adjust. destruct (Z.ltb_spec pos 0); [lia|].
      destruct (Z.ltb_spec (len h) 0); [lia|].
      replace (Z.min (len h) (len h) - Z.min pos (len h)) with 0 by lia.
      apply substring_zero. }
    rewrite Hnone, H0, slice_from by lia.
    rewrite (substring_beyond h (Z.to_nat pos)) by (unfold len in *; lia).
    split; [|split].
    + rewrite append_empty_r. apply substring_whole. unfold len in *. lia.
    + exists "". split; reflexivity.
    + intros ch sel. split; reflexivity.
Qed.

Lemma read_aloud_from_caret_witness :
  len (ScrollUi.on_read_aloud ""
         {| Scroll.text_ctrl := {| Scroll.value := "abcabc";
                                   Scroll.insertion_point := 2;
                                   Scroll.selection := (2, 2);
                                   Scroll.focused := false |};
            Scroll.search_box := "" |}) <= 5000.
Proof.
  refine (proj1 (read_aloud_from_caret _ _)). cbn. lia.
Defined.

(** ** Loading into the text view (variant 1) *)

Lemma scroll_pdf_loop_outcome (reader_pages : list (result string)) (acc : list string) :
  ScrollUi.pdf_loop reader_pages acc =
  match first_error reader_pages with
  | Some e => Raise e
  | None => Ok (acc ++ filter truthy (returned reader_pages))%list
  end.
Proof.
  revert acc; induction reader_pages as [|[txt|e] rest IH]; intros acc.
  - cbn. now rewrite app_nil_r.
  - cbn [ScrollUi.pdf_loop bind first_error returned filter]. rewrite IH.
    destruct (first_error rest); [reflexivity|].
    destruct (truthy txt); [now rewrite <- app_assoc|reflexivity].
  - reflexivity.
Qed.

(** X16.  [_read_pdf] of variant 1 on every input: a diagnostic string
    when pypdf is missing or when opening the file or extracting any page
    raises; otherwise the non-empty page texts in page order, joined by
    newlines.  Pages holding only white space are kept (there is no
    [strip] here), and a PDF without text loads as the empty string. *)
Theorem scroll_read_pdf_total (os : Platform) (path : string) :
  ScrollUi._read_pdf os path =
  match PdfReader os with
  | None => "Library missing: pypdf"
  | Some reader =>
      match reader path with
      | Raise e => "Error reading PDF: " ++ e
      | Ok reader_pages =>
          match first_error reader_pages with
          | Some e => "Error reading PDF: " ++ e
          | None =>
              String.concat (String "010" "") (filter truthy (returned reader_pages))
          end
      end
  end.
Proof.
  unfold ScrollUi._read_pdf.
  destruct (PdfReader os) as [reader|]; [|reflexivity].
  destruct (reader path) as [reader_pages|e]; [|reflexivity].
  cbn [bind]. rewrite scroll_pdf_loop_outcome.
  destruct (first_error reader_pages); reflexivity.
Qed.




Lemma length_append (a b : string) :
  String.length (a ++ b) = (String.length a + String.length b)%nat.
Proof. induction a; cbn; congruence. Qed.







(** ** Variant 3 extraction with failures, and unknown extensions *)

Lemma ice_pdf_comprehension_outcome (reader_pages : list (result string)) :
  Ice.pdf_comprehension reader_pages =
  match first_error reader_pages with
  | Some e => Raise e
  | None => Ok (filter has_text (returned reader_pages))
  end.
Proof.
  induction reader_pages as [|[txt|e] rest IH]; [reflexivity| |reflexivity].
  cbn [Ice.pdf_comprehension bind first_error returned filter]. rewrite IH.
  unfold has_text. destruct (truthy (strip txt)), (first_error rest); reflexivity.
Qed.

(** [_read_pdf] and [_read_epub] of variant 3, case by case. *)
Lemma ice_extraction_cases (os : Platform) (path : string) :
  Ice._read_pdf os path =
  match PdfReader os with
  | None => ["Please install pypdf"]
  | Some reader =>
      match reader path with
      | Raise e => [e]
      | Ok reader_pages =>
          match first_error reader_pages with
          | Some e => [e]
          | None => filter has_text (returned reader_pages)
          end
      end
  end /\
  Ice._read_epub os path =
  match epub os with
  | None => ["Please install ebooklib beautifulsoup4"]
  | Some read_epub =>
      match read_epub path with
      | Raise e => [e]
      | Ok book =>
          match document_texts (get_items book) with
          | Raise e => [e]
          | Ok texts => filter (fun text => 200 <? len text) texts
          end
      end
  end.
Proof.
  split.
  - unfold Ice._read_pdf.
    destruct (PdfReader os) as [reader|]; [|reflexivity].
    destruct (reader path) as [reader_pages|e]; [|reflexivity].
    cbn [bind]. rewrite ice_pdf_comprehension_outcome.
    destruct (first_error reader_pages); reflexivity.
  - unfold Ice._read_epub.
    destruct (epub os) as [read_epub|]; [|reflexivity].
    destruct (read_epub path) as [book|e]; [|reflexivity].
    cbn [bind]. rewrite ice_epub_loop_spec.
    destruct (document_texts (get_items book)); reflexivity.
Qed.

(** X18.  [_read_pdf] and [_read_epub] of variant 3 on every input: a
    missing library gives one page asking to install it; a failure while
    opening or while extracting any page or section gives one page holding
    the bare message; otherwise the PDF pages with text, respectively the
    document sections longer than 200 characters, in order and whole.
    Unlike variant 2 the result can be empty.  A PDF page has text when
    [str.strip()] leaves something: a page holding only U+00A0, U+0085 and
    a space is dropped. *)
Theorem ice_extraction_total (os : Platform) (path : string) :
  Ice._read_pdf os path =
  match PdfReader os with
  | None => ["Please install pypdf"]
  | Some reader =>
      match reader path with
      | Raise e => [e]
      | Ok reader_pages =>
          match first_error reader_pages with
          | Some e => [e]
          | None => filter has_text (returned reader_pages)
          end
      end
  end /\
  Ice._read_epub os path =
  match epub os with
  | None => ["Please install ebooklib beautifulsoup4"]
  | Some read_epub =>
      match read_epub path with
      | Raise e => [e]
      | Ok book =>
          match document_texts (get_items book) with
          | Raise e => [e]
          | Ok texts => filter (fun text => 200 <? len text) texts
          end
      end
  end /\
  Ice._read_pdf pdf_nbsp_page "book.pdf" = [].
Proof.
  destruct (ice_extraction_cases os path) as (Hpdf & Hepub).
  split; [exact Hpdf|]. split; [exact Hepub|reflexivity].
Qed.

Lemma eqb_unrecognized (ext : string) :
  ext <> ".txt" -> ext <> ".pdf" -> ext <> ".epub" ->
  (ext =? ".txt")%string = false /\ (ext =? ".pdf")%string = false /\
  (ext =? ".epub")%string = false.
Proof. intros H1 H2 H3. repeat split; now apply String.eqb_neq. Qed.

(** X19.  A path whose extension is not [.txt], [.pdf] or [.epub] is
    answered without touching the file or any library: the page view of
    variant 2 shows the single page "Unsupported file format." with both
    buttons disabled, variant 3 gets the single page "Could not read
    file.", and the text view of variant 1 shows "Unsupported file format."
    under the file's name. *)
Theorem unrecognized_extension (os : Platform) (pathname : string)
    (Hext : unrecognized os pathname) :
  (forall self,
     let s := Paged._load_file os pathname self in
     Paged.pages s = ["Unsupported file format."] /\
     Paged.text_ctrl s = "Unsupported file format." /\
     Paged.current_page_idx s = 0 /\
     Paged.prev_btn s = false /\ Paged.next_btn s = false /\
     Paged.title_lbl s = basename os pathname) /\
  Ice.extract_text os pathname = ["Could not read file."] /\
  (forall self,
     ScrollUi._load_file os pathname self
     = {| ScrollUi.view_text := "Unsupported file format.";
          ScrollUi.view_title := basename os pathname |}).
Proof.
  destruct Hext as (H1 & H2 & H3).
  destruct (eqb_unrecognized _ H1 H2 H3) as (E1 & E2 & E3).
  split; [|split].
  - intros self. cbn zeta. unfold Paged._load_file, Paged.new_pages_of.
    rewrite E1, E2, E3. cbn. repeat split.
  - unfold Ice.extract_text. rewrite E1, E2, E3. reflexivity.
  - intros self. unfold ScrollUi._load_file. rewrite E1, E2, E3. reflexivity.
Qed.

Lemma unrecognized_extension_witness :
  Ice.extract_text hello_txt "book.mobi" = ["Could not read file."].
Proof.
  refine (proj1 (proj2 (unrecognized_extension hello_txt "book.mobi" _))).
  unfold unrecognized. cbn. repeat split; discriminate.
Defined.

(** ** What [stop] cannot do *)

Lemma stop_keeps_workers (n : nat) (w : Tts.World) :
  Tts.started (Tts.run (repeat Tts.CallStop n) w) = Tts.started w /\
  Tts.audio (Tts.run (repeat Tts.CallStop n) w) = Tts.audio w.
Proof.
  unfold Tts.run. revert w; induction n as [|n IH]; intros w; [split; reflexivity|].
  cbn [repeat fold_left]. destruct (IH (Tts.step Tts.CallStop w)) as (Hs & Ha).
  rewrite Hs, Ha. split; reflexivity.
Qed.

(** X20.  [stop()] never cancels a worker that was started: for a worker
    that has not run yet, however many times [stop()] is called before the
    scheduler lets it run, it then plays its whole text (when its engine
    does not fail) and leaves the flag [False]. *)
Theorem stop_does_not_cancel_started_worker (w : Tts.World) (i n : nat) (text : string)
    (Hpending : nth_error (Tts.started w) i = Some (text, false)) :
  let w' := Tts.run (repeat Tts.CallStop n ++ [Tts.WorkerRuns i Tts.NoFault]) w in
  Tts.audio w' = (Tts.audio w ++ [text])%list /\
  is_speaking (Tts.self_ w') = false /\
  nth_error (Tts.started w') i = Some (text, true).
Proof.
  cbn zeta. unfold Tts.run. rewrite fold_left_app. cbn [fold_left].
  fold (Tts.run (repeat Tts.CallStop n) w).
  destruct (stop_keeps_workers n w) as (Hs & Ha).
  set (w1 := Tts.run (repeat Tts.CallStop n) w) in *.
  cbn [Tts.step]. rewrite Hs, Hpending.
  cbn [Tts.self_ Tts.audio Tts.started].
  destruct (speak_thread_audio Tts.NoFault text w1) as (Haudio & Hstarted).
  rewrite speak_thread_self, Haudio, Hstarted, Hs, Ha.
  split; [reflexivity|]. split; [reflexivity|].
  clear -Hpending. revert i Hpending.
  induction (Tts.started w) as [|[t b] ws IH]; intros i Hnth.
  - destruct i; discriminate.
  - destruct i as [|i]; cbn in Hnth.
    + injection Hnth as -> ->. reflexivity.
    + cbn. now apply IH.
Qed.

Lemma stop_does_not_cancel_started_worker_witness :
  Tts.audio
    (Tts.run (repeat Tts.CallStop 2 ++ [Tts.WorkerRuns 0 Tts.NoFault])
       (Tts.run [Tts.CallSpeak "page"] (Tts.boot (Ok {| stop_calls := 0 |}))))
  = ["page"].
Proof.
  refine (proj1 (stop_does_not_cancel_started_worker
                   (Tts.run [Tts.CallSpeak "page"]
                      (Tts.boot (Ok {| stop_calls := 0 |}))) 0 2 "page" _)).
  reflexivity.
Defined.

(** ** The Stop button of the page view (variant 2) *)

Lemma load_file_tts (os : Platform) (pathname : string) (self : Paged.ReaderPanel) :
  Paged.tts_service (Paged._load_file os pathname self) = Paged.tts_service self.
Proof.
  destruct (load_file_unfold os pathname self) as (s0 & -> & _ & _ & Ht).
  now rewrite update_display_tts.
Qed.

Lemma paged_step_tts_wf (s : Paged.ReaderPanel) (ev : PagedUi.Event) :
  tts_wf (Paged.tts_service s) ->
  tts_wf (Paged.tts_service (PagedUi.step s ev)).
Proof.
  intros Hwf. destruct ev as [os pathname| | |selection| |]; cbn [PagedUi.step].
  - now rewrite load_file_tts.
  - unfold Paged.on_next_page. destruct (_ <? _); [|exact Hwf].
    rewrite update_display_tts. cbn. now apply tts_wf_stop.
  - unfold Paged.on_prev_page. destruct (_ <? _); [|exact Hwf].
    rewrite update_display_tts. cbn. now apply tts_wf_stop.
  - unfold PagedUi.on_read_aloud.
    destruct (is_empty (Paged.pages s)); [exact Hwf|].
    destruct (truthy selection).
    + pose proof (tts_wf_speak selection _ Hwf) as Hs.
      destruct (Tts.speak selection (Paged.tts_service s)). exact Hs.
    + destruct (getitem (Paged.pages s) (Paged.current_page_idx s)) as [c|e];
        [|exact Hwf].
      cbn [bind]. pose proof (tts_wf_speak c _ Hwf) as Hs.
      destruct (Tts.speak c (Paged.tts_service s)). exact Hs.
  - cbn. now apply tts_wf_stop.
  - cbn. unfold tts_wf. reflexivity.
Qed.

(** X21.  In every state the page view of variant 2 can reach, whether or
    not the engine could be created, pressing Stop leaves the coordinator
    reporting that it is not speaking, and changes nothing else: pages,
    index, display and buttons stay as they are.  The flag is never set
    on a coordinator without engine. *)
Theorem stop_button_clears_flag (r : result Engine) (evs : list PagedUi.Event) :
  let s := PagedUi.run evs (Paged.ReaderPanel_init (TTSService_init r)) in
  let s' := PagedUi.on_stop_read s in
  is_speaking (Paged.tts_service s') = false /\
  s' = Paged.set_tts_service (Paged.tts_service s') s /\
  match engine (Paged.tts_service s) with
  | None => is_speaking (Paged.tts_service s) = false /\ s' = s
  | Some _ => True
  end.
Proof.
  cbn zeta. set (s := PagedUi.run evs (Paged.ReaderPanel_init (TTSService_init r))).
  assert (Hwf : tts_wf (Paged.tts_service s)).
  { unfold s, PagedUi.run.
    assert (Hgen : forall s0, tts_wf (Paged.tts_service s0) ->
              tts_wf (Paged.tts_service (fold_left PagedUi.step evs s0))).
    { induction evs as [|ev evs IH]; intros s0 H0; [exact H0|].
      cbn [fold_left]. apply IH. now apply paged_step_tts_wf. }
    apply Hgen. apply tts_wf_init. }
  split; [cbn; now apply stop_clears_flag|]. split; [reflexivity|].
  destruct (engine (Paged.tts_service s)) eqn:He; [exact I|].
  split; [exact (Hwf He)|].
  unfold PagedUi.on_stop_read, Tts.stop. rewrite He. now destruct s.
Qed.
